(** * NoiseGo: the connection API, the identity binding and the key stores

    A shallow embedding of [apis.go] and of the constants and the [Config]
    struct of [common.go]: the requirement check run by [Listen] and
    [DialWithDialer], the two constructors themselves over an explicit
    network environment, and the hex-encoded key files. *)

From Stdlib Require Import ZArith NArith List Ascii String Bool Lia.
From Stdlib.Strings Require Import Byte.
From stdpp Require Import gmap strings list.

Local Open Scope string_scope.
Local Open Scope list_scope.
Local Open Scope Z_scope.

(** ** Constants of the implementation (common.go) *)

Definition NoiseDraftVersion : string := "33".
Definition NoiseDH : string := "25519".
Definition NoiseAEAD : string := "ChaChaPoly".
Definition NoiseHASH : string := "SHA256".

Definition NoiseMessageLength : Z := 65535 - 2.
Definition NoiseTagLength : Z := 16.
Definition NoiseMaxPlaintextSize : Z := NoiseMessageLength - NoiseTagLength.

(** ** Handshake patterns and the configuration *)

(** Modelled from the spec: [noiseHandshakeType] and its constants are
    declared in another file of the package; the specification lists the
    fifteen patterns N, K, X, NN, NK, NX, KN, KK, KX, XN, XK, XX, IN, IK, IX
    from which a protocol name is formed. *)
Inductive noiseHandshakeType : Type :=
| Noise_N | Noise_K | Noise_X
| Noise_NN | Noise_NK | Noise_NX
| Noise_KN | Noise_KK | Noise_KX
| Noise_XN | Noise_XK | Noise_XX
| Noise_IN | Noise_IK | Noise_IX.

#[global] Instance noiseHandshakeType_eq_dec : EqDecision noiseHandshakeType.
Proof. solve_decision. Defined.

(** Go's [==] on two pattern constants. *)
Definition ht_eqb (a b : noiseHandshakeType) : bool := bool_decide (a = b).

(** Modelled from the spec: [KeyPair] is declared in another file of the
    package; the specification gives it a 32-byte private scalar and a
    32-byte public key, and [apis.go] slices both fields as byte arrays. *)
Record KeyPair : Type := mkKeyPair {
  PrivateKey : list byte;
  PublicKey : list byte
}.

(** The two fields are [[32]byte] arrays. *)
Definition KeyPair_wf (kp : KeyPair) : Prop :=
  length (PrivateKey kp) = 32%nat /\ length (PublicKey kp) = 32%nat.

(** [Config] as declared next to the constants.  A nil slice, a nil pointer
    and a nil func are [None]; an empty but allocated slice is [Some []]. *)
Record Config : Type := mkConfig {
  HandshakePattern : noiseHandshakeType;
  Config_KeyPair : option KeyPair;
  RemoteKey : option (list byte);
  Prologue : option (list byte);
  StaticPublicKeyProof : option (list byte);
  PublicKeyVerifier : option (list byte -> list byte -> bool);
  HalfDuplex : bool
}.

(** ** Errors *)

Inductive error : Type :=
| errorString (msg : string)                 (* errors.New *)
| timeoutError                               (* type timeoutError struct{} *)
| ErrLength                                  (* encoding/hex *)
| InvalidByteError (b : byte)                (* encoding/hex *)
| PathError (op path reason : string)        (* os, through io/ioutil *)
| OpError (op : string) (timed_out : bool).  (* net *)

Definition errors_New (msg : string) : error := errorString msg.

Definition timeoutError_Error (_ : unit) : string := "noise: DialWithDialer timed out".
Definition timeoutError_Temporary (_ : unit) : bool := true.


Definition errNoPubkeyVerifier : error :=
  errors_New "Noise: no public key verifier set in Config".
Definition errNoProof : error :=
  errors_New "Noise: no public key proof set in Config".

(** ** checkRequirements *)

Definition is_nil {A : Type} (o : option A) : bool :=
  match o with None => true | Some _ => false end.

(** The result is Go's [err]: [None] is [nil]. *)
Definition checkRequirements (isClient : bool) (config : Config) : option error :=
  let ht := HandshakePattern config in
  let first :=
    if ht_eqb ht Noise_NX || ht_eqb ht Noise_KX || ht_eqb ht Noise_XX || ht_eqb ht Noise_IX
    then
      if isClient && is_nil (PublicKeyVerifier config) then Some errNoPubkeyVerifier
      else if negb isClient && is_nil (StaticPublicKeyProof config) then Some errNoProof
      else None
    else None in
  match first with
  | Some err => Some err
  | None =>
    if ht_eqb ht Noise_XN || ht_eqb ht Noise_XK || ht_eqb ht Noise_XX || ht_eqb ht Noise_X
       || ht_eqb ht Noise_IN || ht_eqb ht Noise_IK || ht_eqb ht Noise_IX
    then
      if isClient && is_nil (StaticPublicKeyProof config) then Some errNoProof
      else if negb isClient && is_nil (PublicKeyVerifier config) then Some errNoPubkeyVerifier
      else None
    else None
  end.

(** *** The validation table of the specification

    These definitions follow the words of the specification, not the code:
    two rows of patterns, and per role the hook each row asks for. *)

Definition table_row1 : list noiseHandshakeType :=
  [Noise_NX; Noise_KX; Noise_XX; Noise_IX].
Definition table_row2 : list noiseHandshakeType :=
  [Noise_XN; Noise_XK; Noise_X; Noise_IN; Noise_IK; Noise_IX; Noise_XX].

Definition in_row (row : list noiseHandshakeType) (ht : noiseHandshakeType) : bool :=
  existsb (ht_eqb ht) row.

(** Row 1: initiator needs the verifier; row 2: responder needs it. *)
Definition table_requires_verifier (isClient : bool) (ht : noiseHandshakeType) : bool :=
  if isClient then in_row table_row1 ht else in_row table_row2 ht.

(** Row 1: responder needs the proof; row 2: initiator needs it. *)
Definition table_requires_proof (isClient : bool) (ht : noiseHandshakeType) : bool :=
  if isClient then in_row table_row2 ht else in_row table_row1 ht.

(** A hook the table asks of this role is absent from the config. *)
Definition table_hook_missing (isClient : bool) (config : Config) : bool :=
  (table_requires_verifier isClient (HandshakePattern config)
     && is_nil (PublicKeyVerifier config))
  || (table_requires_proof isClient (HandshakePattern config)
     && is_nil (StaticPublicKeyProof config)).

(** The patterns that occur in neither row. *)
Definition no_hook_patterns : list noiseHandshakeType :=
  [Noise_NN; Noise_NK; Noise_KN; Noise_KK; Noise_N; Noise_K].

(** ** Panics, and code with state

    A Go call either returns or panics; the functions of [apis.go] also act
    on the file system or on the network, which is threaded as a state. *)

Inductive panic_value : Type :=
| PanicError (e : error)        (* panic(err) *)
| PanicString (msg : string)    (* panic("...") *)
| PanicIndexOutOfRange.         (* runtime error: index out of range *)

Inductive outcome (A : Type) : Type :=
| Ret (a : A)
| Panic (p : panic_value).
Arguments Ret {A} a.
Arguments Panic {A} p.

Definition M (S A : Type) : Type := S -> outcome A * S.

Definition ret {S A : Type} (a : A) : M S A := fun s => (Ret a, s).
Definition panic {S A : Type} (p : panic_value) : M S A := fun s => (Panic p, s).
Definition bind {S A B : Type} (m : M S A) (k : A -> M S B) : M S B :=
  fun s => match m s with
           | (Ret a, s') => k a s'
           | (Panic p, s') => (Panic p, s')
           end.
(** A pure computation that may panic, run inside stateful code. *)
Definition lift {S A : Type} (o : outcome A) : M S A := fun s => (o, s).

Definition obind {A B : Type} (o : outcome A) (k : A -> outcome B) : outcome B :=
  match o with
  | Ret a => k a
  | Panic p => Panic p
  end.

Declare Scope go_scope.
Delimit Scope go_scope with go.
Notation "x <- m ;; k" := (bind m (fun x => k))
  (at level 100, m at next level, right associativity) : go_scope.
Notation "'do' ( x , y ) <- m ;; k" := (bind m (fun xy => let '(x, y) := xy in k))
  (at level 100, x name, y name, m at next level, right associativity) : go_scope.

(** ** encoding/hex, as [apis.go] uses it *)

Module hex.

Definition hextable : list byte := list_byte_of_string "0123456789abcdef".

(** [hextable[n]] *)
Definition table_at (n : N) : byte := nth (N.to_nat n) hextable x00.

(** [v >> 4] and [v & 0x0f] *)
Definition hi (v : byte) : N := N.shiftr (Byte.to_N v) 4.
Definition lo (v : byte) : N := N.land (Byte.to_N v) 15.

(** A [uint8] from a number, with the wrap-around of the type. *)
Definition uint8 (n : N) : byte :=
  match Byte.of_N (n mod 256) with
  | Some b => b
  | None => x00
  end.

(** [dst[j] = x]: an index past the end of the slice panics. *)
Definition store (dst : list byte) (j : nat) (x : byte) : outcome (list byte) :=
  if (j <? length dst)%nat then Ret (<[j:=x]> dst) else Panic PanicIndexOutOfRange.

(** The loop of [Encode], from output index [j] on. *)
Fixpoint Encode_from (j : nat) (dst src : list byte) : outcome (list byte) :=
  match src with
  | [] => Ret dst
  | v :: src' =>
      obind (store dst j (table_at (hi v))) (fun dst1 =>
      obind (store dst1 (j + 1) (table_at (lo v))) (fun dst2 =>
      Encode_from (j + 2) dst2 src'))
  end.

(** [hex.Encode(dst, src)]: the slice [dst] after the call. *)
Definition Encode (dst src : list byte) : outcome (list byte) :=
  Encode_from 0 dst src.

(** [fromHexChar]: the value of a hexadecimal digit, and whether it is one. *)
Definition fromHexChar (c : byte) : N * bool :=
  let n := Byte.to_N c in
  if (48 <=? n)%N && (n <=? 57)%N then ((n - 48)%N, true)
  else if (97 <=? n)%N && (n <=? 102)%N then ((n - 97 + 10)%N, true)
  else if (65 <=? n)%N && (n <=? 70)%N then ((n - 65 + 10)%N, true)
  else (0%N, false).

(** The loop of [Decode], from output index [i] on. *)
Fixpoint Decode_from (i : nat) (dst src : list byte)
  : outcome (list byte * option error) :=
  match src with
  | p :: src1 =>
      match src1 with
      | q :: src' =>
          let '(a, ok) := fromHexChar p in
          if negb ok then Ret (dst, Some (InvalidByteError p)) else
          let '(b, ok) := fromHexChar q in
          if negb ok then Ret (dst, Some (InvalidByteError q)) else
          obind (store dst i (uint8 (N.lor (N.shiftl a 4) b))) (fun dst' =>
          Decode_from (i + 1) dst' src')
      | [] => Ret (dst, None)
      end
  | [] => Ret (dst, None)
  end.

(** [hex.Decode(dst, src)]: the slice [dst] after the call, and the error. *)
Definition Decode (dst src : list byte) : outcome (list byte * option error) :=
  if Nat.odd (length src) then Ret (dst, Some ErrLength)
  else Decode_from 0 dst src.

(** The encoding as a function: two digits per byte. *)
Definition digits (src : list byte) : list byte :=
  flat_map (fun v => [table_at (hi v); table_at (lo v)]) src.

(** The characters that are hexadecimal digits, in the words of a reader
    of the format. *)
Definition is_hex_digit (c : byte) : bool :=
  existsb (Byte.eqb c) (list_byte_of_string "0123456789abcdefABCDEF").

Definition is_lower_hex_digit (c : byte) : bool :=
  existsb (Byte.eqb c) hextable.

End hex.

(** ** golang.org/x/crypto/ed25519: the sizes of its keys and signatures *)

Module ed25519.
Definition PublicKeySize : nat := 32.
Definition PrivateKeySize : nat := 64.
Definition SignatureSize : nat := 64.

(** What [GenerateKey] returns: a public key, and a private key that is the
    32-byte seed followed by the public key. *)
Definition generated (publicKey privateKey : list byte) : Prop :=
  length publicKey = PublicKeySize /\
  length privateKey = PrivateKeySize /\
  drop 32 privateKey = publicKey.
End ed25519.

(** ** The file system, through io/ioutil *)

Record file : Type := mkFile {
  f_data : list byte;
  f_mode : Z
}.

(** The file system as the process sees it: the files by identity, the
    file that a path names (none when a directory of the path is missing;
    two paths may name one file), whether the system lets a file be opened
    for writing or created, and the umask of the process. *)
Record FS : Type := mkFS {
  fs_files : gmap string file;
  fs_resolve : string -> option string;
  fs_accepts : string -> bool;
  fs_umask : Z
}.

(** The file at a path. *)
#[global] Instance FS_lookup : Lookup string file FS :=
  fun name fs =>
    match fs_resolve fs name with
    | Some id => fs_files fs !! id
    | None => None
    end.

(** The file system with the file [id] replaced. *)
Definition fs_set (id : string) (f : file) (fs : FS) : FS :=
  mkFS (<[id := f]> (fs_files fs)) (fs_resolve fs) (fs_accepts fs) (fs_umask fs).

(** Permission bits, in octal in the source. *)
Definition perm_0400 : Z := 4 * 64.
Definition perm_0644 : Z := 6 * 64 + 4 * 8 + 4.
Definition owner_can_read (f : file) : bool := Z.testbit (f_mode f) 8.
Definition owner_can_write (f : file) : bool := Z.testbit (f_mode f) 7.

(** The mode of a file created with [perm]. *)
Definition created_mode (fs : FS) (perm : Z) : Z :=
  Z.land perm (Z.lnot (fs_umask fs)).

(** [ioutil.ReadFile]: the content, or nil and an error. *)
Definition ioutil_ReadFile (name : string) : M FS (list byte * option error) :=
  fun fs =>
    match fs !! name with
    | Some f =>
        if owner_can_read f then (Ret (f_data f, None), fs)
        else (Ret ([], Some (PathError "open" name "permission denied")), fs)
    | None => (Ret ([], Some (PathError "open" name "no such file or directory")), fs)
    end.

(** [ioutil.WriteFile]: fails when the path names no file, not even one to
    be created, or when the system refuses the write; truncates an existing
    file that its owner may write, whose mode stays; creates an absent one
    with [perm] less the umask. *)
Definition ioutil_WriteFile (name : string) (data : list byte) (perm : Z)
  : M FS (option error) :=
  fun fs =>
    match fs_resolve fs name with
    | None => (Ret (Some (PathError "open" name "no such file or directory")), fs)
    | Some id =>
        match fs_files fs !! id with
        | Some f =>
            if owner_can_write f && fs_accepts fs id
            then (Ret None, fs_set id (mkFile data (f_mode f)) fs)
            else (Ret (Some (PathError "open" name "permission denied")), fs)
        | None =>
            if fs_accepts fs id
            then (Ret None, fs_set id (mkFile data (created_mode fs perm)) fs)
            else (Ret (Some (PathError "open" name "permission denied")), fs)
        end
    end.

(** ** Storage of the root signing keys *)

Section KeyStores.
Local Open Scope go_scope.

(** [publicKey] and [privateKey] are what [ed25519.GenerateKey] drew. *)
Definition GenerateAndSaveNoiseRootKeyPair (publicKey privateKey : list byte)
    (NoiseRootPrivateKeyFile NoiseRootPublicKeyFile : string)
  : M FS (option error) :=
  let publicKeyHex := repeat x00 (32 * 2) in
  let privateKeyHex := repeat x00 (32 * 2) in
  publicKeyHex <- lift (hex.Encode publicKeyHex publicKey) ;;
  privateKeyHex <- lift (hex.Encode privateKeyHex privateKey) ;;
  err <- ioutil_WriteFile NoiseRootPrivateKeyFile privateKeyHex perm_0400 ;;
  match err with
  | Some e => ret (Some e)
  | None =>
      err <- ioutil_WriteFile NoiseRootPublicKeyFile publicKeyHex perm_0644 ;;
      match err with
      | Some e => ret (Some e)
      | None => ret None
      end
  end.

Definition LoadNoiseRootPublicKey (noiseRootPublicKey : string)
  : M FS (option (list byte) * option error) :=
  do (publicKeyHex, err) <- ioutil_ReadFile noiseRootPublicKey ;;
  match err with
  | Some e => ret (None, Some e)
  | None =>
      if negb (length publicKeyHex =? 32 * 2)%nat
      then ret (None, Some (errors_New
             "Noise: Noise root public key file is not correctly formated"))
      else
        let publicKey := repeat x00 32 in
        do (publicKey, err) <- lift (hex.Decode publicKey publicKeyHex) ;;
        match err with
        | Some e => ret (None, Some e)
        | None => ret (Some publicKey, None)
        end
  end.

Definition LoadNoiseRootPrivateKey (noiseRootPrivateKey : string)
  : M FS (option (list byte) * option error) :=
  do (privateKeyHex, err) <- ioutil_ReadFile noiseRootPrivateKey ;;
  match err with
  | Some e => ret (None, Some e)
  | None =>
      if negb (length privateKeyHex =? 32 * 2)%nat
      then ret (None, Some (errors_New
             "Noise: Noise root private key file is not correctly formated"))
      else
        let privateKey := repeat x00 32 in
        do (privateKey, err) <- lift (hex.Decode privateKey privateKeyHex) ;;
        match err with
        | Some e => ret (None, Some e)
        | None => ret (Some privateKey, None)
        end
  end.

(** *** Storage of the Noise static keys *)

(** [keyPair] is what [GenerateKeypair] drew. *)
Definition GenerateAndSaveNoiseKeyPair (keyPair : KeyPair) (NoiseKeyPairFile : string)
  : M FS (option error) :=
  let dataToWrite := repeat x00 128 in
  front <- lift (hex.Encode (take 64 dataToWrite) (PrivateKey keyPair)) ;;
  let dataToWrite := (front ++ drop 64 dataToWrite)%list in
  back <- lift (hex.Encode (drop 64 dataToWrite) (PublicKey keyPair)) ;;
  let dataToWrite := (take 64 dataToWrite ++ back)%list in
  err <- ioutil_WriteFile NoiseKeyPairFile dataToWrite perm_0644 ;;
  match err with
  | Some _ => ret (Some (errors_New "Noise: could not write on file at path"))
  | None => ret None
  end.

Definition LoadNoiseKeyPair (noisePrivateKeyPairFile : string)
  : M FS (option KeyPair * option error) :=
  do (keyPairString, err) <- ioutil_ReadFile noisePrivateKeyPairFile ;;
  match err with
  | Some e => ret (None, Some e)
  | None =>
      if negb (length keyPairString =? 64 * 2)%nat
      then ret (None, Some (errors_New
             "Noise: Noise key pair file is not correctly formated"))
      else
        let keyPair := mkKeyPair (repeat x00 32) (repeat x00 32) in
        do (priv, err) <- lift (hex.Decode (PrivateKey keyPair) (take 64 keyPairString)) ;;
        let keyPair := mkKeyPair priv (PublicKey keyPair) in
        match err with
        | Some e => ret (None, Some e)
        | None =>
            do (pub, err) <- lift (hex.Decode (PublicKey keyPair) (drop 64 keyPairString)) ;;
            let keyPair := mkKeyPair (PrivateKey keyPair) pub in
            match err with
            | Some e => ret (None, Some e)
            | None => ret (Some keyPair, None)
            end
        end
  end.

End KeyStores.

(** ** Authentication helpers *)

Section Authentication.

(** The two operations of the ed25519 package are taken as given:
    [ed25519.Verify], and the signature that [Sign] computes from a
    private key of the right size. *)
Variable ed25519_Verify : list byte -> list byte -> list byte -> bool.
Variable ed25519_sign : list byte -> list byte -> list byte.

(** [PrivateKey.Sign(rand, message, opts)]: an error for a hashed
    message, a panic for a private key of the wrong size. *)
Definition PrivateKey_Sign (priv message : list byte) (opts_HashFunc : Z)
  : outcome (list byte * option error) :=
  if negb (opts_HashFunc =? 0)
  then Ret ([], Some (errors_New "ed25519: cannot sign hashed message"))
  else if negb (length priv =? ed25519.PrivateKeySize)%nat
  then Panic (PanicString "ed25519: bad private key length")
  else Ret (ed25519_sign priv message, None).

Definition CreatePublicKeyVerifier (rootPublicKey : list byte)
  : list byte -> list byte -> bool :=
  fun publicKey proof => ed25519_Verify rootPublicKey publicKey proof.

Definition CreateStaticPublicKeyProof (rootPrivateKey : list byte) (keyPair : KeyPair)
  : outcome (list byte) :=
  obind (PrivateKey_Sign rootPrivateKey (PublicKey keyPair) 0)
    (fun r => let '(signature, err) := r in
              match err with
              | Some _ => Panic (PanicString "Noise: can't create static public key proof")
              | None => Ret signature
              end).

End Authentication.

(** ** Connections, listeners and the network *)

(** An instant, in nanoseconds since the zero [time.Time]; a [time.Duration]
    is a signed 64-bit count of nanoseconds. *)
Definition minDuration : Z := - 2 ^ 63.
Definition maxDuration : Z := 2 ^ 63 - 1.

Definition Time_IsZero (t : Z) : bool := t =? 0.

(** [t.Sub(u)] saturates at the ends of [Duration]. *)
Definition Time_Sub (t u : Z) : Z :=
  if t - u <? minDuration then minDuration
  else if maxDuration <? t - u then maxDuration
  else t - u.

(** [time.Until(t)], with the clock reading [now]. *)
Definition time_Until (now t : Z) : Z := Time_Sub t now.

(** The two fields of [net.Dialer] that [DialWithDialer] reads. *)
Record Dialer : Type := mkDialer {
  Timeout : Z;
  Deadline : Z
}.

(** [new(net.Dialer)] *)
Definition new_Dialer : Dialer := mkDialer 0 0.

(** [Conn], as [Server] and [Client] build it; the raw connection is named
    by a number. *)
Record Conn : Type := mkConn {
  conn : nat;
  config : Config;
  isClient : bool
}.

Record listener : Type := mklistener {
  listener_Listener : nat;
  listener_config : Config
}.

Definition Server (conn : nat) (config : Config) : Conn := mkConn conn config false.
Definition Client (conn : nat) (config : Config) : Conn := mkConn conn config true.

(** What the functions do to the outside, in order. *)
Inductive event : Type :=
| EvListen (network laddr : string)     (* net.Listen *)
| EvAccept (l : nat)                    (* l.Listener.Accept *)
| EvTimer (d : Z)                       (* time.AfterFunc *)
| EvDial (network addr : string)        (* dialer.Dial *)
| EvHandshake (c : nat)                 (* conn.Handshake *)
| EvClose (c : nat).                    (* rawConn.Close *)

Definition is_network_io (ev : event) : bool :=
  match ev with
  | EvTimer _ => false
  | _ => true
  end.

(** The collaborators: the clock, the [net] package, the handshake of
    [Conn], and the order in which the timer and the handshake goroutine
    send on the channel. *)
Record Env : Type := mkEnv {
  time_Now : Z;
  net_Listen : string -> string -> nat + error;
  Listener_Accept : nat -> nat + error;
  dialer_Dial : Dialer -> string -> string -> nat + error;
  Conn_Handshake : Conn -> option error;
  (** the instant, counted from the start of the timer, at which the
      handshake goroutine sends its result *)
  handshake_sends_at : Z;
  (** which send the channel sees first when both happen at one instant *)
  timer_first_on_tie : bool
}.

Section Network.
Local Open Scope go_scope.
Variable env : Env.

Definition emit (ev : event) : M (list event) unit :=
  fun tr => (Ret tt, (tr ++ [ev])%list).

Definition listener_Accept (l : listener) : M (list event) (option Conn * option error) :=
  _ <- emit (EvAccept (listener_Listener l)) ;;
  match Listener_Accept env (listener_Listener l) with
  | inr err => ret (None, Some err)
  | inl c => ret (Some (Server c (listener_config l)), None)
  end.

Definition Listen (network laddr : string) (config : option Config)
  : M (list event) (option listener * option error) :=
  match config with
  | None => ret (None, Some (errors_New "Noise: no Config set"))
  | Some config =>
      match checkRequirements true config with
      | Some err => panic (PanicError err)
      | None =>
          _ <- emit (EvListen network laddr) ;;
          match net_Listen env network laddr with
          | inr err => ret (None, Some err)
          | inl l => ret (Some (mklistener l config), None)
          end
      end
  end.

(** The value of [timeout] once the dialer's deadline is taken in. *)
Definition dial_timeout (dialer : Dialer) : Z :=
  let timeout := Timeout dialer in
  if negb (Time_IsZero (Deadline dialer)) then
    let deadlineTimeout := time_Until (time_Now env) (Deadline dialer) in
    if (timeout =? 0) || (deadlineTimeout <? timeout) then deadlineTimeout
    else timeout
  else timeout.

(** The timer sends when [timeout] has passed, at once when it is not
    positive. *)
Definition timer_sends_at (timeout : Z) : Z := Z.max 0 timeout.

Definition timer_sends_first (timeout : Z) : bool :=
  (timer_sends_at timeout <? handshake_sends_at env)
  || ((timer_sends_at timeout =? handshake_sends_at env) && timer_first_on_tie env).

(** [err = <-errChannel]: the first of the two values sent. *)
Definition receive_first (timeout : Z) (handshake : option error) : option error :=
  if timer_sends_first timeout then Some timeoutError else handshake.

(** The value of [err] after the handshake step. *)
Definition handshake_step (timeout : Z) (c : Conn) : option error :=
  if timeout =? 0 then Conn_Handshake env c
  else receive_first timeout (Conn_Handshake env c).

Definition DialWithDialer (dialer : Dialer) (network addr : string)
    (config : option Config)
  : M (list event) (option Conn * option error) :=
  let timeout := dial_timeout dialer in
  match config with
  | None => panic (PanicString "Noise: no Config set")
  | Some config =>
      match checkRequirements true config with
      | Some err => panic (PanicError err)
      | None =>
          _ <- (if negb (timeout =? 0) then emit (EvTimer timeout) else ret tt) ;;
          _ <- emit (EvDial network addr) ;;
          match dialer_Dial env dialer network addr with
          | inr err => ret (None, Some err)
          | inl rawConn =>
              let conn := Client rawConn config in
              _ <- emit (EvHandshake rawConn) ;;
              match handshake_step timeout conn with
              | Some err =>
                  _ <- emit (EvClose rawConn) ;;
                  ret (None, Some err)
              | None => ret (Some conn, None)
              end
          end
      end
  end.

Definition Dial (network addr : string) (config : option Config)
  : M (list event) (option Conn * option error) :=
  DialWithDialer new_Dialer network addr config.

End Network.


(** *** Sample collaborators, for the concrete runs *)

(** A network on which everything succeeds, and a handshake that takes
    five seconds. *)
Definition env_ok : Env :=
  mkEnv 1000000000000
        (fun _ _ => inl 1%nat) (fun _ => inl 2%nat) (fun _ _ _ => inl 3%nat)
        (fun _ => None) 5000000000 false.

Definition always_true : list byte -> list byte -> bool := fun _ _ => true.


(** Pattern NX with the verifier and without the proof: complete for an
    initiator, incomplete for a responder. *)
Definition config_NX_verifier_only : Config :=
  mkConfig Noise_NX None None None None (Some always_true) false.

(** Pattern NN, which needs no hook. *)
Definition config_NN : Config :=
  mkConfig Noise_NN None None None None None false.

(** A dialer with a timeout of one second and no deadline. *)
Definition dialer_1s : Dialer := mkDialer 1000000000 0.

(** A generated root key pair, as far as its shape goes, and a static key
    pair. *)
Definition sample_root_private : list byte := repeat x07 32 ++ repeat x2a 32.
Definition sample_root_public : list byte := repeat x2a 32.
Definition sample_keyPair : KeyPair := mkKeyPair (repeat x11 32) (repeat xab 32).

(** A file system of one directory, the working directory: a plain name
    and the same name after [./] are one file, and a path through any other
    directory names nothing.  Every write is accepted, and the umask is
    022. *)
Fixpoint has_slash (path : string) : bool :=
  match path with
  | EmptyString => false
  | String c rest => Ascii.eqb c "/" || has_slash rest
  end.

Definition resolve_cwd (path : string) : option string :=
  let p := match path with
           | String "." (String "/" rest) => rest
           | _ => path
           end in
  if has_slash p then None
  else match p with
       | EmptyString => None
       | _ => Some p
       end.

Definition fs_cwd (files : gmap string file) : FS :=
  mkFS files resolve_cwd (fun _ => true) 18.

(** A file system with one key file that ends in a newline. *)
Definition fs_newline : FS :=
  fs_cwd (<["root.pub" := mkFile (hex.digits sample_root_public ++ [x0a]) perm_0644]> ∅).




(** *** Further samples *)

(** A handshake that reports after one millisecond. *)
Definition env_fast : Env :=
  mkEnv 1000000000000
        (fun _ _ => inl 1%nat) (fun _ => inl 2%nat) (fun _ _ _ => inl 3%nat)
        (fun _ => None) 1000000 false.


(** Pattern XX with both hooks, the proof being an empty slice. *)
Definition config_XX_both : Config :=
  mkConfig Noise_XX None None None (Some []) (Some always_true) false.

(** Pattern KK with a key pair and a remote key, and the same without. *)
Definition config_KK_keys : Config :=
  mkConfig Noise_KK (Some sample_keyPair) (Some (repeat x05 32)) None None None false.
Definition config_KK_bare : Config :=
  mkConfig Noise_KK None None None None None false.

(** The upper-case form of a letter. *)
Definition hex_to_upper (c : byte) : byte :=
  let n := Byte.to_N c in
  if (97 <=? n)%N && (n <=? 122)%N then hex.uint8 (n - 32) else c.

(** Two characters that differ at most in letter case. *)
Definition same_letter (c d : byte) : Prop := c = d \/ c = hex_to_upper d.

(** A file system with a well-formed root private key file, a key file that
    cannot be written, and the texts they hold. *)
Definition sample_seed : list byte := repeat x07 32.
Definition fs_root_private : FS :=
  fs_cwd (<["root.priv" := mkFile (hex.digits sample_seed) perm_0400]> ∅).
Definition fs_readonly : FS :=
  fs_cwd (<["static.key" := mkFile [] perm_0400]> ∅).
Definition other_keyPair : KeyPair := mkKeyPair (repeat x22 32) (repeat xcd 32).

(** What the loaders ask of a key file, in the words of the format: it
    exists, its owner may read it, and it holds [n] hexadecimal digits. *)
Definition key_file_ok (n : nat) (fs : FS) (name : string) : Prop :=
  exists f, fs !! name = Some f /\ owner_can_read f = true /\
            length (f_data f) = n /\ forallb hex.is_hex_digit (f_data f) = true.

(** A root private key file spelled in upper case. *)
Definition fs_upper : FS :=
  fs_cwd (<["root.priv" := mkFile (map hex_to_upper (hex.digits (repeat xab 32))) perm_0400]> ∅).

(** ** Theorems on the constants and the requirement check *)

(** C4: the framing limits are the numbers of the specification:
    [NoiseMessageLength] is 65533, [NoiseTagLength] is 16 and
    [NoiseMaxPlaintextSize] is 65517, which is 65533 - 16. *)
Theorem framing_limits :
  NoiseMessageLength = 65533 /\ NoiseTagLength = 16 /\
  NoiseMaxPlaintextSize = 65517 /\ NoiseMaxPlaintextSize = 65533 - 16.
Proof. repeat split. Qed.

Lemma checkRequirements_errors (isClient : bool) (config : Config) (e : error) :
  checkRequirements isClient config = Some e ->
  e = errNoPubkeyVerifier \/ e = errNoProof.
Proof.
  unfold checkRequirements.
  repeat match goal with
         | |- context [if ?b then _ else _] => destruct b
         end; intros H; inversion H; auto.
Qed.

Lemma checkRequirements_missing (isClient : bool) (config : Config) :
  checkRequirements isClient config <> None <->
  table_hook_missing isClient config = true.
Proof.
  destruct config as [ht kp rk pr proof ver hd].
  destruct isClient, ht, proof, ver; vm_compute; split; congruence.
Qed.

Lemma checkRequirements_complete (isClient : bool) (config : Config) :
  table_hook_missing isClient config = false ->
  checkRequirements isClient config = None.
Proof.
  intros H. destruct (checkRequirements isClient config) eqn:E; [|reflexivity].
  assert (table_hook_missing isClient config = true) as H'
    by (apply checkRequirements_missing; congruence).
  congruence.
Qed.

(** C1: [checkRequirements] returns an error exactly when a hook that the
    validation table asks of the given role is absent; XX and IX, which are
    in both rows, ask both hooks of both roles; otherwise the result is nil. *)
Theorem checkRequirements_table (isClient : bool) (config : Config) :
  (checkRequirements isClient config <> None <->
     table_hook_missing isClient config = true) /\
  (table_hook_missing isClient config = false ->
     checkRequirements isClient config = None) /\
  (forall ht, ht = Noise_XX \/ ht = Noise_IX ->
     forall role, table_requires_verifier role ht = true /\
                  table_requires_proof role ht = true).
Proof.
  split; [|split].
  - apply checkRequirements_missing.
  - apply checkRequirements_complete.
  - intros ht [-> | ->] [|]; split; reflexivity.
Qed.

(** C10: for the patterns NN, NK, KN, KK, N and K, which are in neither
    row of the table, [checkRequirements] returns nil for both roles,
    whatever the two hooks are. *)
Theorem checkRequirements_no_hook_patterns (isClient : bool) (config : Config) :
  In (HandshakePattern config) no_hook_patterns ->
  checkRequirements isClient config = None.
Proof.
  destruct config as [ht kp rk pr proof ver hd]; simpl.
  intros H.
  destruct ht; simpl in H;
    try (exfalso; intuition congruence);
    destruct isClient, proof, ver; reflexivity.
Qed.

Lemma checkRequirements_no_hook_patterns_witness :
  In Noise_KK no_hook_patterns /\
  checkRequirements true (mkConfig Noise_KK None None None None None false) = None.
Proof.
  split.
  - simpl; tauto.
  - apply (checkRequirements_no_hook_patterns true
             (mkConfig Noise_KK None None None None None false)).
    simpl; tauto.
Defined.

(** ** Theorems on [Listen] and [DialWithDialer] *)


(** Both constructors run the requirement check with [isClient = true];
    when it fails they panic with its error and leave the trace as it was. *)
Lemma DialWithDialer_check_fails (env : Env) (dialer : Dialer) (network addr : string)
    (config : Config) (e : error) (tr : list event) :
  checkRequirements true config = Some e ->
  DialWithDialer env dialer network addr (Some config) tr = (Panic (PanicError e), tr).
Proof. intros H. unfold DialWithDialer. rewrite H. reflexivity. Qed.


Lemma Listen_check_passes (env : Env) (network laddr : string)
    (config : Config) (tr : list event) :
  checkRequirements true config = None ->
  exists r, Listen env network laddr (Some config) tr = (Ret r, tr ++ [EvListen network laddr]).
Proof.
  intros H. unfold Listen. rewrite H. unfold bind, emit.
  destruct (net_Listen env network laddr); eexists; reflexivity.
Qed.




(** C3 at a failing input: pattern NX asks the proof of the responder, the
    config has the verifier only, the check for the responder rejects it,
    and yet [Listen] accepts it and listens, since it runs the check of the
    initiator; the connections it accepts are responder connections. *)
Theorem Listen_checks_initiator_column :
  table_requires_proof false (HandshakePattern config_NX_verifier_only) = true /\
  StaticPublicKeyProof config_NX_verifier_only = None /\
  checkRequirements false config_NX_verifier_only = Some errNoProof /\
  checkRequirements true config_NX_verifier_only = None /\
  Listen env_ok "tcp" ":4000" (Some config_NX_verifier_only) []
    = (Ret (Some (mklistener 1 config_NX_verifier_only), None),
       [EvListen "tcp" ":4000"]) /\
  listener_Accept env_ok (mklistener 1 config_NX_verifier_only) []
    = (Ret (Some (mkConn 2 config_NX_verifier_only false), None), [EvAccept 1%nat]).
Proof. repeat split. Qed.



(** Every run of [DialWithDialer] on a config that passes the check. *)
Lemma DialWithDialer_run (env : Env) (dialer : Dialer) (network addr : string)
    (c : Config) (tr : list event) :
  checkRequirements true c = None ->
  DialWithDialer env dialer network addr (Some c) tr
  = match dialer_Dial env dialer network addr with
    | inr e =>
        (Ret (None, Some e),
         tr ++ (if negb (dial_timeout env dialer =? 0)
                then [EvTimer (dial_timeout env dialer)] else [])
            ++ [EvDial network addr])
    | inl rc =>
        match handshake_step env (dial_timeout env dialer) (Client rc c) with
        | Some e =>
            (Ret (None, Some e),
             tr ++ (if negb (dial_timeout env dialer =? 0)
                    then [EvTimer (dial_timeout env dialer)] else [])
                ++ [EvDial network addr; EvHandshake rc; EvClose rc])
        | None =>
            (Ret (Some (Client rc c), None),
             tr ++ (if negb (dial_timeout env dialer =? 0)
                    then [EvTimer (dial_timeout env dialer)] else [])
                ++ [EvDial network addr; EvHandshake rc])
        end
    end.
Proof.
  intros Hc. unfold DialWithDialer. rewrite Hc. unfold bind, emit, ret.
  destruct (negb (dial_timeout env dialer =? 0));
    destruct (dialer_Dial env dialer network addr) as [rc|e]; simpl;
    try destruct (handshake_step env (dial_timeout env dialer) (Client rc c));
    simpl; rewrite <- ?app_assoc; reflexivity.
Qed.






(** ** Lemmas on encoding/hex *)

Lemma store_lt (dst : list byte) (j : nat) (x : byte) :
  (j < length dst)%nat -> hex.store dst j x = Ret (<[j:=x]> dst).
Proof.
  intros H. unfold hex.store.
  destruct (Nat.ltb_spec j (length dst)); [reflexivity | lia].
Qed.

Lemma store_ge (dst : list byte) (j : nat) (x : byte) :
  (length dst <= j)%nat -> hex.store dst j x = Panic PanicIndexOutOfRange.
Proof.
  intros H. unfold hex.store.
  destruct (Nat.ltb_spec j (length dst)); [lia | reflexivity].
Qed.

Lemma length_digits (src : list byte) :
  length (hex.digits src) = (2 * length src)%nat.
Proof. induction src as [|v src IH]; simpl in *; lia. Qed.

(** Two stores at [j] and [j + 1] rewrite exactly these two cells. *)
Lemma store_pair_shape (dst : list byte) (j n : nat) (a b : byte) :
  (j + 2 <= length dst)%nat ->
  take (j + 2) (<[(j + 1)%nat:=b]> (<[j:=a]> dst)) = take j dst ++ [a; b] /\
  drop (j + 2 + n) (<[(j + 1)%nat:=b]> (<[j:=a]> dst)) = drop (j + 2 + n) dst.
Proof.
  intros H. split.
  - replace (j + 2)%nat with (S (S j)) by lia.
    replace (j + 1)%nat with (S j) by lia.
    rewrite (take_S_r _ (S j) b)
      by (apply list_lookup_insert_eq; rewrite length_insert; lia).
    rewrite take_insert_ge by lia.
    rewrite (take_S_r _ j a) by (apply list_lookup_insert_eq; lia).
    rewrite take_insert_ge by lia.
    rewrite <- app_assoc. reflexivity.
  - rewrite !drop_insert_lt by lia. reflexivity.
Qed.

(** With room in [dst], [Encode] writes the digits and leaves the rest. *)
Lemma Encode_from_ok (src : list byte) :
  forall (j : nat) (dst : list byte),
    (j + 2 * length src <= length dst)%nat ->
    hex.Encode_from j dst src
    = Ret (take j dst ++ hex.digits src ++ drop (j + 2 * length src) dst).
Proof.
  induction src as [|v src IH]; intros j dst H.
  - simpl. rewrite Nat.add_0_r, take_drop. reflexivity.
  - cbn [hex.Encode_from]. cbn [length] in H.
    rewrite store_lt by lia. cbn [obind].
    rewrite store_lt by (rewrite length_insert; lia). cbn [obind].
    rewrite IH by (rewrite !length_insert; lia).
    destruct (store_pair_shape dst j (2 * length src)
                (hex.table_at (hex.hi v)) (hex.table_at (hex.lo v))
                ltac:(lia)) as [Ht Hd].
    rewrite Ht, Hd.
    change (hex.digits (v :: src))
      with ([hex.table_at (hex.hi v); hex.table_at (hex.lo v)] ++ hex.digits src).
    replace (j + 2 * length (v :: src))%nat with (j + 2 + 2 * length src)%nat
      by (cbn [length]; lia).
    rewrite <- !app_assoc. reflexivity.
Qed.

(** Without room, [Encode] runs off the end of [dst] and panics. *)
Lemma Encode_from_short (src : list byte) :
  forall (j : nat) (dst : list byte),
    (j <= length dst)%nat ->
    (length dst < j + 2 * length src)%nat ->
    hex.Encode_from j dst src = Panic PanicIndexOutOfRange.
Proof.
  induction src as [|v src IH]; intros j dst Hj H.
  - simpl in H. lia.
  - cbn [hex.Encode_from]. cbn [length] in H.
    destruct (Nat.lt_ge_cases j (length dst)) as [H1|H1];
      [|rewrite store_ge by lia; reflexivity].
    rewrite store_lt by lia. cbn [obind].
    destruct (Nat.lt_ge_cases (j + 1) (length dst)) as [H2|H2];
      [|rewrite store_ge by (rewrite length_insert; lia); reflexivity].
    rewrite store_lt by (rewrite length_insert; lia). cbn [obind].
    apply IH; rewrite !length_insert; lia.
Qed.

Lemma Encode_fits (dst src : list byte) :
  length dst = (2 * length src)%nat ->
  hex.Encode dst src = Ret (hex.digits src).
Proof.
  intros H. unfold hex.Encode. rewrite Encode_from_ok by lia.
  rewrite take_0, drop_ge by lia. rewrite app_nil_r. reflexivity.
Qed.

Lemma Encode_overflows (dst src : list byte) :
  (length dst < 2 * length src)%nat ->
  hex.Encode dst src = Panic PanicIndexOutOfRange.
Proof. intros H. apply Encode_from_short; lia. Qed.

Lemma digit_roundtrip (v : byte) :
  hex.fromHexChar (hex.table_at (hex.hi v)) = (hex.hi v, true) /\
  hex.fromHexChar (hex.table_at (hex.lo v)) = (hex.lo v, true) /\
  hex.uint8 (N.lor (N.shiftl (hex.hi v) 4) (hex.lo v)) = v.
Proof. destruct v; vm_compute; repeat split. Qed.

Lemma digits_lower_hex (src : list byte) :
  forallb hex.is_lower_hex_digit (hex.digits src) = true.
Proof.
  induction src as [|v src IH]; [reflexivity|].
  cbn [hex.digits flat_map app forallb]. fold (hex.digits src). rewrite IH.
  destruct v; reflexivity.
Qed.

Lemma fromHexChar_is_hex_digit (c : byte) :
  snd (hex.fromHexChar c) = hex.is_hex_digit c.
Proof. destruct c; reflexivity. Qed.

(** [Decode] undoes [Encode]. *)
Lemma Decode_from_digits (src : list byte) :
  forall (i : nat) (dst : list byte),
    (i + length src <= length dst)%nat ->
    hex.Decode_from i dst (hex.digits src)
    = Ret (take i dst ++ src ++ drop (i + length src) dst, None).
Proof.
  induction src as [|v src IH]; intros i dst H.
  - simpl. rewrite Nat.add_0_r, take_drop. reflexivity.
  - cbn [hex.digits flat_map app hex.Decode_from]. fold (hex.digits src).
    cbn [length] in H.
    destruct (digit_roundtrip v) as (-> & -> & ->). cbn [negb].
    rewrite store_lt by lia. cbn [obind].
    rewrite IH by (rewrite length_insert; lia).
    replace (i + 1)%nat with (S i) by lia.
    rewrite (take_S_r _ i v) by (apply list_lookup_insert_eq; lia).
    rewrite take_insert_ge by lia.
    rewrite drop_insert_lt by lia.
    replace (i + length (v :: src))%nat with (S i + length src)%nat
      by (cbn [length]; lia).
    rewrite <- app_assoc. reflexivity.
Qed.

Lemma Decode_digits (dst src : list byte) :
  length dst = length src ->
  hex.Decode dst (hex.digits src) = Ret (src, None).
Proof.
  intros H. unfold hex.Decode. rewrite length_digits.
  replace (Nat.odd (2 * length src)) with false
    by (symmetry; rewrite <- Nat.negb_even, Nat.even_mul; reflexivity).
  rewrite Decode_from_digits by lia.
  rewrite take_0, drop_ge by lia. rewrite app_nil_r. reflexivity.
Qed.

(** With room in [dst], [Decode] returns, and without an error exactly
    when every character is a hexadecimal digit. *)
Lemma Decode_from_total (n : nat) :
  forall (src : list byte) (i : nat) (dst : list byte),
    length src = (2 * n)%nat ->
    (i + n <= length dst)%nat ->
    exists dst' err,
      hex.Decode_from i dst src = Ret (dst', err) /\
      length dst' = length dst /\
      (err = None <-> forallb hex.is_hex_digit src = true).
Proof.
  induction n as [|n IH]; intros src i dst Hl Hd.
  - destruct src; [|discriminate Hl].
    exists dst, None. repeat split; reflexivity.
  - destruct src as [|p [|q src]]; try (simpl in Hl; lia).
    cbn [hex.Decode_from forallb].
    pose proof (fromHexChar_is_hex_digit p) as Hp.
    pose proof (fromHexChar_is_hex_digit q) as Hq.
    destruct (hex.fromHexChar p) as [a okp]. destruct (hex.fromHexChar q) as [b okq].
    simpl in Hp, Hq. subst okp okq.
    destruct (hex.is_hex_digit p);
      [|exists dst, (Some (InvalidByteError p)); repeat split; simpl; congruence].
    destruct (hex.is_hex_digit q);
      [|exists dst, (Some (InvalidByteError q)); repeat split; simpl; congruence].
    cbn [negb andb].
    rewrite store_lt by lia. cbn [obind].
    destruct (IH src (i + 1)%nat (<[i:=hex.uint8 (N.lor (N.shiftl a 4) b)]> dst))
      as (dst' & err & E & L & V);
      [simpl in Hl; lia | rewrite length_insert; lia |].
    exists dst', err. rewrite length_insert in L. auto.
Qed.

Lemma Decode_total (dst src : list byte) :
  (length src <= 2 * length dst)%nat ->
  exists dst' err,
    hex.Decode dst src = Ret (dst', err) /\
    length dst' = length dst /\
    (err = None <->
     Nat.even (length src) = true /\ forallb hex.is_hex_digit src = true).
Proof.
  intros Hl. unfold hex.Decode.
  destruct (Nat.odd (length src)) eqn:Ho.
  - exists dst, (Some ErrLength). repeat split; try congruence.
    intros [He _]. rewrite <- Nat.negb_odd, Ho in He. discriminate He.
  - assert (Nat.even (length src) = true) as He
      by (rewrite <- Nat.negb_odd, Ho; reflexivity).
    pose proof He as He'. apply Nat.even_spec in He'. destruct He' as [n Hn].
    destruct (Decode_from_total n src 0 dst Hn ltac:(lia)) as (dst' & err & E & L & V).
    exists dst', err. repeat split; tauto.
Qed.

(** A character that is not a hexadecimal digit, or an odd length, makes
    [Decode] return an error. *)
Lemma Decode_invalid (dst src : list byte) :
  (length src <= 2 * length dst)%nat ->
  forallb hex.is_hex_digit src = false ->
  exists dst' e, hex.Decode dst src = Ret (dst', Some e).
Proof.
  intros Hl Hx.
  destruct (Decode_total dst src Hl) as (dst' & [e|] & E & _ & V).
  - eauto.
  - destruct (proj1 V eq_refl) as [_ H]. congruence.
Qed.

(** ** Theorems on the key stores *)

Lemma ReadFile_readable (fs : FS) (name : string) (f : file) :
  fs !! name = Some f -> owner_can_read f = true ->
  ioutil_ReadFile name fs = (Ret (f_data f, None), fs).
Proof. intros H R. unfold ioutil_ReadFile. rewrite H, R. reflexivity. Qed.

Lemma ReadFile_cases (fs : FS) (name : string) (f : file) :
  fs !! name = Some f ->
  ioutil_ReadFile name fs = (Ret (f_data f, None), fs) \/
  exists e, ioutil_ReadFile name fs = (Ret ([], Some e), fs).
Proof.
  intros H. unfold ioutil_ReadFile. rewrite H.
  destruct (owner_can_read f); eauto.
Qed.

(** The shape shared by the two loaders of a root key. *)
Lemma load_root_rejects (fs : FS) (name : string) (f : file) (msg : string) :
  fs !! name = Some f ->
  length (f_data f) <> 64%nat \/ forallb hex.is_hex_digit (f_data f) = false ->
  exists e,
    bind (ioutil_ReadFile name) (fun xy =>
      let '(keyHex, err) := xy in
      match err with
      | Some e => ret (None, Some e)
      | None =>
          if negb (length keyHex =? 32 * 2)%nat
          then ret (None, Some (errors_New msg))
          else
            bind (lift (hex.Decode (repeat x00 32) keyHex)) (fun xy =>
              let '(key, err) := xy in
              match err with
              | Some e => ret (None, Some e)
              | None => ret (Some key, None)
              end)
      end) fs
    = (Ret (@None (list byte), Some e), fs).
Proof.
  intros Hf Hbad. unfold bind at 1.
  destruct (ReadFile_cases fs name f Hf) as [-> | [e ->]]; [|eauto].
  destruct (Nat.eqb_spec (length (f_data f)) (32 * 2)) as [Hlen|Hlen]; cbn [negb]; [|eauto].
  destruct Hbad as [Hbad|Hbad]; [contradiction|].
  destruct (Decode_invalid (repeat x00 32) (f_data f)) as (dst' & e & E);
    [rewrite repeat_length; lia | exact Hbad |].
  unfold bind, lift. rewrite E. eauto.
Qed.

Lemma forallb_take_drop {A : Type} (p : A -> bool) (n : nat) (l : list A) :
  forallb p l = forallb p (take n l) && forallb p (drop n l).
Proof. rewrite <- forallb_app, take_drop. reflexivity. Qed.

Lemma LoadNoiseKeyPair_rejects (fs : FS) (name : string) (f : file) :
  fs !! name = Some f ->
  length (f_data f) <> 128%nat \/ forallb hex.is_hex_digit (f_data f) = false ->
  exists e, LoadNoiseKeyPair name fs = (Ret (None, Some e), fs).
Proof.
  intros Hf Hbad. unfold LoadNoiseKeyPair. unfold bind at 1.
  destruct (ReadFile_cases fs name f Hf) as [-> | [e ->]]; [|eauto].
  destruct (Nat.eqb_spec (length (f_data f)) (64 * 2)) as [Hlen|Hlen]; cbn [negb]; [|eauto].
  destruct Hbad as [Hbad|Hbad]; [contradiction|].
  cbn [PrivateKey PublicKey].
  destruct (Decode_total (repeat x00 32) (take 64 (f_data f)))
    as (d1 & e1 & E1 & _ & V1); [rewrite length_take, repeat_length; lia|].
  destruct (Decode_total (repeat x00 32) (drop 64 (f_data f)))
    as (d2 & e2 & E2 & _ & V2); [rewrite length_drop, repeat_length; lia|].
  unfold bind, lift. rewrite E1.
  destruct e1 as [e1|]; [eauto|].
  rewrite E2.
  destruct e2 as [e2|]; [eauto|].
  destruct (proj1 V1 eq_refl) as [_ H1]. destruct (proj1 V2 eq_refl) as [_ H2].
  rewrite (forallb_take_drop _ 64), H1, H2 in Hbad. discriminate Hbad.
Qed.

(** C6: a key file of the wrong size, or with a character that is not a
    hexadecimal digit, is a parse failure: the loaders of the root keys
    return an error and no key unless the content is 64 bytes of
    hexadecimal, and [LoadNoiseKeyPair] unless it is 128. *)
Theorem load_rejects_malformed (fs : FS) (name : string) (f : file) :
  fs !! name = Some f ->
  (length (f_data f) <> 64%nat \/ forallb hex.is_hex_digit (f_data f) = false ->
     (exists e, LoadNoiseRootPublicKey name fs = (Ret (None, Some e), fs)) /\
     (exists e, LoadNoiseRootPrivateKey name fs = (Ret (None, Some e), fs))) /\
  (length (f_data f) <> 128%nat \/ forallb hex.is_hex_digit (f_data f) = false ->
     exists e, LoadNoiseKeyPair name fs = (Ret (None, Some e), fs)).
Proof.
  intros Hf. split.
  - intros Hbad. split.
    + exact (load_root_rejects fs name f _ Hf Hbad).
    + exact (load_root_rejects fs name f _ Hf Hbad).
  - intros Hbad. exact (LoadNoiseKeyPair_rejects fs name f Hf Hbad).
Qed.

Lemma fs_set_lookup_eq (fs : FS) (name id : string) (f : file) :
  fs_resolve fs name = Some id -> fs_set id f fs !! name = Some f.
Proof.
  intros H. unfold lookup, FS_lookup. cbn [fs_set fs_resolve fs_files].
  rewrite H. apply lookup_insert_eq.
Qed.

Lemma fs_set_lookup_ne (fs : FS) (other id : string) (f : file) :
  fs_resolve fs other <> Some id -> fs_set id f fs !! other = fs !! other.
Proof.
  intros H. unfold lookup, FS_lookup. cbn [fs_set fs_resolve fs_files].
  destruct (fs_resolve fs other) as [id'|]; [|reflexivity].
  apply lookup_insert_ne. congruence.
Qed.

Lemma fs_cwd_lookup (files : gmap string file) (name id : string) :
  resolve_cwd name = Some id -> fs_cwd files !! name = files !! id.
Proof.
  intros H. unfold lookup at 1. unfold FS_lookup. cbn [fs_cwd fs_resolve fs_files].
  rewrite H. reflexivity.
Qed.

(** A write either fails and changes nothing, or replaces the one file
    that the path names. *)
Lemma WriteFile_cases (name : string) (data : list byte) (perm : Z) (fs : FS) :
  (exists e, ioutil_WriteFile name data perm fs = (Ret (Some e), fs)) \/
  (exists id mode,
     fs_resolve fs name = Some id /\
     ioutil_WriteFile name data perm fs = (Ret None, fs_set id (mkFile data mode) fs) /\
     mode = match fs_files fs !! id with
            | Some f0 => f_mode f0
            | None => created_mode fs perm
            end).
Proof.
  unfold ioutil_WriteFile.
  destruct (fs_resolve fs name) as [id|]; [|eauto].
  destruct (fs_files fs !! id) as [f0|] eqn:Hf.
  - destruct (owner_can_write f0 && fs_accepts fs id); [|eauto].
    right. exists id, (f_mode f0). rewrite Hf. auto.
  - destruct (fs_accepts fs id); [|eauto].
    right. exists id, (created_mode fs perm). rewrite Hf. auto.
Qed.

(** A write succeeds when the path names a file, the system accepts the
    write and the file, if it exists, may be written by its owner. *)
Lemma WriteFile_ok (name id : string) (data : list byte) (perm : Z) (fs : FS) :
  fs_resolve fs name = Some id ->
  fs_accepts fs id = true ->
  (forall f0, fs_files fs !! id = Some f0 -> owner_can_write f0 = true) ->
  ioutil_WriteFile name data perm fs
  = (Ret None,
     fs_set id (mkFile data (match fs_files fs !! id with
                             | Some f0 => f_mode f0
                             | None => created_mode fs perm
                             end)) fs).
Proof.
  intros Hr Ha Hw. unfold ioutil_WriteFile. rewrite Hr, Ha.
  destruct (fs_files fs !! id) as [f0|]; [|reflexivity].
  rewrite (Hw f0 eq_refl). reflexivity.
Qed.

Lemma save_keypair_data (fs : FS) (name : string) (kp : KeyPair) :
  KeyPair_wf kp ->
  GenerateAndSaveNoiseKeyPair kp name fs
  = bind (ioutil_WriteFile name
            (hex.digits (PrivateKey kp) ++ hex.digits (PublicKey kp)) perm_0644)
      (fun err => match err with
                  | Some _ => ret (Some (errors_New "Noise: could not write on file at path"))
                  | None => ret None
                  end) fs.
Proof.
  intros [Hpriv Hpub]. unfold GenerateAndSaveNoiseKeyPair.
  unfold bind at 1. unfold lift at 1.
  rewrite Encode_fits by (rewrite length_take, repeat_length, Hpriv; reflexivity).
  unfold bind at 1. unfold lift at 1.
  assert (length (hex.digits (PrivateKey kp)) = 64%nat) as L
    by (rewrite length_digits, Hpriv; reflexivity).
  rewrite (drop_app_length' (hex.digits (PrivateKey kp))) by (symmetry; exact L).
  rewrite Encode_fits by (rewrite length_drop, repeat_length, Hpub; reflexivity).
  rewrite (take_app_length' (hex.digits (PrivateKey kp))) by (symmetry; exact L).
  reflexivity.
Qed.

Lemma load_keypair_digits (fs : FS) (name : string) (f : file) (kp : KeyPair) :
  KeyPair_wf kp ->
  fs !! name = Some f -> owner_can_read f = true ->
  f_data f = hex.digits (PrivateKey kp) ++ hex.digits (PublicKey kp) ->
  LoadNoiseKeyPair name fs = (Ret (Some kp, None), fs).
Proof.
  intros [Hpriv Hpub] Hf Hr Hd. unfold LoadNoiseKeyPair. unfold bind at 1.
  rewrite (ReadFile_readable fs name f Hf Hr), Hd.
  assert (length (hex.digits (PrivateKey kp)) = 64%nat) as L
    by (rewrite length_digits, Hpriv; reflexivity).
  rewrite length_app, !length_digits, Hpriv, Hpub. cbn [Nat.eqb Nat.mul Nat.add negb].
  cbn [PrivateKey PublicKey].
  rewrite (take_app_length' (hex.digits (PrivateKey kp))) by (symmetry; exact L).
  rewrite (drop_app_length' (hex.digits (PrivateKey kp))) by (symmetry; exact L).
  unfold bind, lift.
  rewrite Decode_digits by (rewrite repeat_length, Hpriv; reflexivity).
  rewrite Decode_digits by (rewrite repeat_length, Hpub; reflexivity).
  destruct kp; reflexivity.
Qed.

(** C7: [GenerateAndSaveNoiseKeyPair] never panics; whenever it returns
    nil, the given file holds the 128 lowercase hexadecimal digits of the
    private key followed by those of the public key, and [LoadNoiseKeyPair]
    on it, when its owner may read it, returns the key pair that was saved;
    it does return nil when the path names a file, the system accepts the
    write, and the file is absent or may be written by its owner, the file
    keeping its mode or being created with 0644 less the umask; and when the
    path names no file, for a missing directory, it returns its error. *)
Theorem keypair_store_roundtrip (fs : FS) (name : string) (kp : KeyPair) :
  KeyPair_wf kp ->
  (exists err fs', GenerateAndSaveNoiseKeyPair kp name fs = (Ret err, fs')) /\
  (forall fs',
     GenerateAndSaveNoiseKeyPair kp name fs = (Ret None, fs') ->
     exists f,
       fs' !! name = Some f /\
       f_data f = hex.digits (PrivateKey kp) ++ hex.digits (PublicKey kp) /\
       length (f_data f) = 128%nat /\
       forallb hex.is_lower_hex_digit (f_data f) = true /\
       (owner_can_read f = true ->
        LoadNoiseKeyPair name fs' = (Ret (Some kp, None), fs'))) /\
  (forall id,
     fs_resolve fs name = Some id ->
     fs_accepts fs id = true ->
     (forall f0, fs_files fs !! id = Some f0 -> owner_can_write f0 = true) ->
     exists fs' f,
       GenerateAndSaveNoiseKeyPair kp name fs = (Ret None, fs') /\
       fs' !! name = Some f /\
       f_mode f = match fs_files fs !! id with
                  | Some f0 => f_mode f0
                  | None => created_mode fs perm_0644
                  end) /\
  (fs_resolve fs name = None ->
   GenerateAndSaveNoiseKeyPair kp name fs
   = (Ret (Some (errors_New "Noise: could not write on file at path")), fs)).
Proof.
  intros Hwf.
  assert (forall id mode,
            fs_resolve fs name = Some id ->
            let f := mkFile (hex.digits (PrivateKey kp) ++ hex.digits (PublicKey kp)) mode in
            fs_set id f fs !! name = Some f /\
            f_data f = hex.digits (PrivateKey kp) ++ hex.digits (PublicKey kp) /\
            length (f_data f) = 128%nat /\
            forallb hex.is_lower_hex_digit (f_data f) = true /\
            (owner_can_read f = true ->
             LoadNoiseKeyPair name (fs_set id f fs)
             = (Ret (Some kp, None), fs_set id f fs))) as Hfile.
  { intros id mode Hr f.
    assert (fs_set id f fs !! name = Some f) as L by (apply fs_set_lookup_eq, Hr).
    split; [exact L|]. split; [reflexivity|]. split.
    - destruct Hwf as [Hpriv Hpub]. unfold f. cbn [f_data].
      rewrite length_app, !length_digits, Hpriv, Hpub. reflexivity.
    - split.
      + unfold f. cbn [f_data]. rewrite forallb_app, !digits_lower_hex. reflexivity.
      + intros Hread. apply (load_keypair_digits _ name f kp Hwf);
          [exact L | exact Hread | reflexivity]. }
  rewrite (save_keypair_data fs name kp Hwf). unfold bind, ret.
  split; [|split; [|split]].
  - destruct (WriteFile_cases name
                (hex.digits (PrivateKey kp) ++ hex.digits (PublicKey kp)) perm_0644 fs)
      as [(e & ->) | (id & mode & _ & -> & _)]; eauto.
  - intros fs'.
    destruct (WriteFile_cases name
                (hex.digits (PrivateKey kp) ++ hex.digits (PublicKey kp)) perm_0644 fs)
      as [(e & ->) | (id & mode & Hr & -> & _)]; intros H; [discriminate H|].
    inversion H. eexists. apply (Hfile id mode Hr).
  - intros id Hr Ha Hw. rewrite (WriteFile_ok name id _ _ fs Hr Ha Hw).
    eexists. eexists. split; [reflexivity|].
    split; [apply fs_set_lookup_eq, Hr | reflexivity].
  - intros Hr. unfold ioutil_WriteFile. rewrite Hr. reflexivity.
Qed.

(** C5 at the failing inputs: a private key of ed25519 is 64 bytes long, its
    digits do not fit the 64 cells of [privateKeyHex], and the call panics
    before it writes anything. *)
Theorem root_keypair_save_panics (fs : FS) (publicKey privateKey : list byte)
    (privFile pubFile : string) :
  ed25519.generated publicKey privateKey ->
  GenerateAndSaveNoiseRootKeyPair publicKey privateKey privFile pubFile fs
  = (Panic PanicIndexOutOfRange, fs).
Proof.
  intros (Hpub & Hpriv & _). unfold GenerateAndSaveNoiseRootKeyPair.
  unfold bind at 1. unfold lift at 1.
  rewrite Encode_fits by (rewrite repeat_length, Hpub; reflexivity).
  unfold bind at 1. unfold lift at 1.
  rewrite Encode_overflows; [reflexivity|].
  rewrite repeat_length, Hpriv. unfold ed25519.PrivateKeySize. lia.
Qed.

(** Had the private key the 32 bytes that the buffer is cut for, the call
    would write the digits of the private key with 0400 and then those of
    the public key with 0644, as the specification has them. *)
Lemma root_keypair_save_32 (fs : FS) (publicKey privateKey : list byte)
    (privFile pubFile : string) :
  length publicKey = 32%nat -> length privateKey = 32%nat ->
  GenerateAndSaveNoiseRootKeyPair publicKey privateKey privFile pubFile fs
  = bind (ioutil_WriteFile privFile (hex.digits privateKey) perm_0400)
      (fun err =>
         match err with
         | Some e => ret (Some e)
         | None =>
             bind (ioutil_WriteFile pubFile (hex.digits publicKey) perm_0644)
               (fun err => match err with
                           | Some e => ret (Some e)
                           | None => ret None
                           end)
         end) fs.
Proof.
  intros Hpub Hpriv. unfold GenerateAndSaveNoiseRootKeyPair.
  unfold bind at 1. unfold lift at 1.
  rewrite Encode_fits by (rewrite repeat_length, Hpub; reflexivity).
  unfold bind at 1. unfold lift at 1.
  rewrite Encode_fits by (rewrite repeat_length, Hpriv; reflexivity).
  reflexivity.
Qed.

Lemma root_keypair_save_panics_witness :
  ed25519.generated sample_root_public sample_root_private /\
  GenerateAndSaveNoiseRootKeyPair sample_root_public sample_root_private
    "root.priv" "root.pub" (fs_cwd ∅)
  = (Panic PanicIndexOutOfRange, fs_cwd ∅).
Proof.
  assert (ed25519.generated sample_root_public sample_root_private) as G
    by (repeat split).
  split; [exact G|].
  exact (root_keypair_save_panics (fs_cwd ∅) sample_root_public sample_root_private
           "root.priv" "root.pub" G).
Defined.

Lemma load_rejects_malformed_witness :
  fs_newline !! "root.pub"
    = Some (mkFile (hex.digits sample_root_public ++ [x0a]) perm_0644) /\
  exists e, LoadNoiseRootPublicKey "root.pub" fs_newline = (Ret (None, Some e), fs_newline).
Proof.
  assert (fs_newline !! "root.pub"
          = Some (mkFile (hex.digits sample_root_public ++ [x0a]) perm_0644)) as L
    by (unfold fs_newline; rewrite (fs_cwd_lookup _ "root.pub" "root.pub" eq_refl);
        apply lookup_insert_eq).
  split; [exact L|].
  destruct (load_rejects_malformed fs_newline "root.pub" _ L) as [H _].
  destruct H as [H _]; [left; vm_compute; lia | exact H].
Defined.

Lemma keypair_store_roundtrip_witness :
  KeyPair_wf sample_keyPair /\
  exists fs',
    GenerateAndSaveNoiseKeyPair sample_keyPair "static.key" (fs_cwd ∅) = (Ret None, fs') /\
    LoadNoiseKeyPair "static.key" fs' = (Ret (Some sample_keyPair, None), fs').
Proof.
  assert (KeyPair_wf sample_keyPair) as W by (split; reflexivity).
  split; [exact W|].
  destruct (keypair_store_roundtrip (fs_cwd ∅) "static.key" sample_keyPair W)
    as (_ & Hload & Hsave & _).
  destruct (Hsave "static.key" eq_refl eq_refl) as (fs' & f & Hs & Hl & Hm).
  - intros f0 H0. cbn [fs_cwd fs_files] in H0. rewrite lookup_empty in H0.
    discriminate H0.
  - exists fs'. split; [exact Hs|].
    destruct (Hload fs' Hs) as (f' & Hl' & _ & _ & _ & Hread).
    apply Hread. rewrite Hl in Hl'. inversion Hl'; subst f'.
    unfold owner_can_read. rewrite Hm. reflexivity.
Defined.

(** ** The proof and its verifier *)

(** The two helpers pass the static public key itself as the message, and
    the root keys in the places of the ed25519 package: checking a proof
    made by [CreateStaticPublicKeyProof] is [ed25519.Verify] on the
    signature of the raw public key. *)
Lemma verifier_on_created_proof
    (ed25519_Verify : list byte -> list byte -> list byte -> bool)
    (ed25519_sign : list byte -> list byte -> list byte)
    (rootPublicKey rootPrivateKey : list byte) (keyPair : KeyPair) :
  length rootPrivateKey = ed25519.PrivateKeySize ->
  exists proof,
    CreateStaticPublicKeyProof ed25519_sign rootPrivateKey keyPair = Ret proof /\
    proof = ed25519_sign rootPrivateKey (PublicKey keyPair) /\
    CreatePublicKeyVerifier ed25519_Verify rootPublicKey (PublicKey keyPair) proof
    = ed25519_Verify rootPublicKey (PublicKey keyPair)
        (ed25519_sign rootPrivateKey (PublicKey keyPair)).
Proof.
  intros H. eexists. split; [|split; reflexivity].
  unfold CreateStaticPublicKeyProof, PrivateKey_Sign.
  rewrite H. reflexivity.
Qed.

(** A root private key read back by [LoadNoiseRootPrivateKey] has 32
    bytes, and signing with it panics. *)
Lemma proof_with_short_key_panics
    (ed25519_sign : list byte -> list byte -> list byte)
    (rootPrivateKey : list byte) (keyPair : KeyPair) :
  length rootPrivateKey = 32%nat ->
  CreateStaticPublicKeyProof ed25519_sign rootPrivateKey keyPair
  = Panic (PanicString "ed25519: bad private key length").
Proof.
  intros H. unfold CreateStaticPublicKeyProof, PrivateKey_Sign.
  rewrite H. reflexivity.
Qed.

(** ** Further properties of the requirement check *)

(** X1: the error of [checkRequirements] names a hook that is indeed nil:
    [errNoPubkeyVerifier] is returned only when [PublicKeyVerifier] is nil
    and [errNoProof] only when [StaticPublicKeyProof] is nil; no other error
    is returned. *)
Theorem checkRequirements_error_sound (isClient : bool) (config : Config) :
  (checkRequirements isClient config = Some errNoPubkeyVerifier ->
     PublicKeyVerifier config = None) /\
  (checkRequirements isClient config = Some errNoProof ->
     StaticPublicKeyProof config = None) /\
  (forall e, checkRequirements isClient config = Some e ->
     e = errNoPubkeyVerifier \/ e = errNoProof).
Proof.
  split; [|split].
  - destruct config as [ht kp rk pr proof ver hd].
    destruct isClient, ht, proof, ver; vm_compute; intros H;
      solve [reflexivity | discriminate H].
  - destruct config as [ht kp rk pr proof ver hd].
    destruct isClient, ht, proof, ver; vm_compute; intros H;
      solve [reflexivity | discriminate H].
  - intros e. apply checkRequirements_errors.
Qed.

(** X2: a config with both hooks set passes the check for every pattern and
    for either role; the check looks at nothing but nil-ness, so that an
    empty proof passes as well. *)
Theorem checkRequirements_both_hooks (isClient : bool) (config : Config) :
  PublicKeyVerifier config <> None ->
  StaticPublicKeyProof config <> None ->
  checkRequirements isClient config = None.
Proof.
  destruct config as [ht kp rk pr proof ver hd]; simpl.
  intros Hv Hp.
  destruct ver; [|congruence]. destruct proof; [|congruence].
  destruct isClient, ht; reflexivity.
Qed.

Lemma checkRequirements_both_hooks_witness :
  PublicKeyVerifier config_XX_both <> None /\
  StaticPublicKeyProof config_XX_both <> None /\
  checkRequirements false config_XX_both = None.
Proof.
  assert (PublicKeyVerifier config_XX_both <> None) as Hv by discriminate.
  assert (StaticPublicKeyProof config_XX_both <> None) as Hp by discriminate.
  split; [exact Hv|]. split; [exact Hp|].
  exact (checkRequirements_both_hooks false config_XX_both Hv Hp).
Defined.

(** X3: the check reads the pattern and whether each hook is nil, and
    nothing else: two configs that agree on these get the same result,
    whatever their key pair, remote key, prologue and duplex mode. *)
Theorem checkRequirements_reads_pattern_and_hooks (isClient : bool) (c1 c2 : Config) :
  HandshakePattern c1 = HandshakePattern c2 ->
  is_nil (PublicKeyVerifier c1) = is_nil (PublicKeyVerifier c2) ->
  is_nil (StaticPublicKeyProof c1) = is_nil (StaticPublicKeyProof c2) ->
  checkRequirements isClient c1 = checkRequirements isClient c2.
Proof.
  intros Hp Hv Hs. unfold checkRequirements. rewrite Hp, Hv, Hs. reflexivity.
Qed.

Lemma checkRequirements_reads_pattern_and_hooks_witness :
  checkRequirements true config_KK_bare = checkRequirements true config_KK_keys.
Proof.
  exact (checkRequirements_reads_pattern_and_hooks true config_KK_bare config_KK_keys
           eq_refl eq_refl eq_refl).
Defined.

(** ** Further properties of [Listen], [Accept], [DialWithDialer] and [Dial] *)

Lemma not_in_timer_prefix (t : Z) (b : bool) (ev : event) (rest : list event) :
  (forall d, ev <> EvTimer d) ->
  In ev ((if b then [EvTimer t] else []) ++ rest) -> In ev rest.
Proof.
  intros Hne H. destruct b; simpl in H; [|exact H].
  destruct H as [H|H]; [|exact H]. exfalso. exact (Hne t (eq_sym H)).
Qed.

(** X4: whenever [Listen] returns, it returns either a listener and no
    error or no listener and an error: for a nil config the error is the
    one that says so and the network is not touched; otherwise [net.Listen]
    was called once, and the result is a listener that holds its socket and
    the caller's config, or its error. *)
Theorem Listen_result (env : Env) (network laddr : string) (cfg : option Config)
    (tr tr' : list event) (r : option listener * option error) :
  Listen env network laddr cfg tr = (Ret r, tr') ->
  (cfg = None /\ r = (None, Some (errors_New "Noise: no Config set")) /\ tr' = tr) \/
  (exists c, cfg = Some c /\ checkRequirements true c = None /\
     tr' = tr ++ [EvListen network laddr] /\
     ((exists l, net_Listen env network laddr = inl l /\
                 r = (Some (mklistener l c), None)) \/
      (exists e, net_Listen env network laddr = inr e /\ r = (None, Some e)))).
Proof.
  unfold Listen. destruct cfg as [c|].
  - destruct (checkRequirements true c) eqn:Hc; [intros H; discriminate H|].
    unfold bind, emit, ret.
    destruct (net_Listen env network laddr) as [l|e] eqn:Hl; intros H; inversion H;
      right; exists c; repeat split; eauto.
  - intros H. inversion H. left. repeat split.
Qed.

Lemma Listen_result_witness :
  Listen env_ok "tcp" ":4000" (Some config_NN) []
    = (Ret (Some (mklistener 1 config_NN), None), [EvListen "tcp" ":4000"]) /\
  exists c, Some config_NN = Some c /\ checkRequirements true c = None.
Proof.
  assert (Listen env_ok "tcp" ":4000" (Some config_NN) []
          = (Ret (Some (mklistener 1 config_NN), None), [EvListen "tcp" ":4000"])) as H
    by reflexivity.
  split; [exact H|].
  destruct (Listen_result env_ok "tcp" ":4000" (Some config_NN) [] _ _ H)
    as [(Hn & _) | (c & Hc & Hr & _)]; [discriminate Hn|].
  exists c. split; assumption.
Defined.

(** X5: the connections accepted on a listener that [Listen] returned are
    responder connections ([isClient] is false) over the accepted raw
    connection, with the config that was given to [Listen]; an error of the
    underlying [Accept] is passed on with no connection. *)
Theorem accepted_conn_is_server (env : Env) (network laddr : string) (c : Config)
    (tr tr' tr2 : list event) (l : listener) :
  Listen env network laddr (Some c) tr = (Ret (Some l, None), tr') ->
  (forall rc, Listener_Accept env (listener_Listener l) = inl rc ->
     listener_Accept env l tr2
     = (Ret (Some (mkConn rc c false), None), tr2 ++ [EvAccept (listener_Listener l)])) /\
  (forall e, Listener_Accept env (listener_Listener l) = inr e ->
     listener_Accept env l tr2
     = (Ret (None, Some e), tr2 ++ [EvAccept (listener_Listener l)])).
Proof.
  intros H.
  assert (listener_config l = c) as Hcfg.
  { unfold Listen in H. destruct (checkRequirements true c); [discriminate H|].
    unfold bind, emit, ret in H.
    destruct (net_Listen env network laddr); inversion H. reflexivity. }
  unfold listener_Accept, bind, emit, ret, Server.
  split; intros x Hx; rewrite Hx, ?Hcfg; reflexivity.
Qed.

Lemma accepted_conn_is_server_witness :
  Listen env_ok "tcp" ":4000" (Some config_XX_both) []
    = (Ret (Some (mklistener 1 config_XX_both), None), [EvListen "tcp" ":4000"]) /\
  listener_Accept env_ok (mklistener 1 config_XX_both) [EvListen "tcp" ":4000"]
    = (Ret (Some (mkConn 2 config_XX_both false), None),
       [EvListen "tcp" ":4000"; EvAccept 1%nat]).
Proof.
  assert (Listen env_ok "tcp" ":4000" (Some config_XX_both) []
          = (Ret (Some (mklistener 1 config_XX_both), None), [EvListen "tcp" ":4000"])) as H
    by reflexivity.
  split; [exact H|].
  exact (proj1 (accepted_conn_is_server env_ok "tcp" ":4000" config_XX_both
                  [] _ [EvListen "tcp" ":4000"] _ H) 2%nat eq_refl).
Defined.

(** X6: whenever [DialWithDialer] returns, the config was not nil and
    passed the check, and the result is either a connection with no error
    or an error with no connection; a returned connection is an initiator
    connection ([isClient] is true) over the dialed raw connection, with the
    caller's config, and that raw connection has not been closed. *)
Theorem DialWithDialer_result (env : Env) (dialer : Dialer) (network addr : string)
    (cfg : option Config) (tr tr' : list event) (r : option Conn * option error) :
  DialWithDialer env dialer network addr cfg tr = (Ret r, tr') ->
  exists c, cfg = Some c /\ checkRequirements true c = None /\
    ((exists rc, dialer_Dial env dialer network addr = inl rc /\
                 r = (Some (mkConn rc c true), None) /\
                 ~ In (EvClose rc) (drop (length tr) tr')) \/
     (exists e, r = (None, Some e))).
Proof.
  destruct cfg as [c|]; [|intros H; discriminate H].
  destruct (checkRequirements true c) as [e|] eqn:Hc.
  - rewrite (DialWithDialer_check_fails env dialer network addr c e tr Hc).
    intros H; discriminate H.
  - rewrite (DialWithDialer_run env dialer network addr c tr Hc).
    intros H. exists c. split; [reflexivity|]. split; [exact Hc|].
    destruct (dialer_Dial env dialer network addr) as [rc|e].
    + destruct (handshake_step env (dial_timeout env dialer) (Client rc c)) as [e|].
      * inversion H. right. eauto.
      * inversion H. left. exists rc. split; [reflexivity|]. split; [reflexivity|].
        rewrite drop_app_length. intros Hin.
        apply not_in_timer_prefix in Hin; [|intros d; discriminate].
        simpl in Hin. destruct Hin as [Hin|[Hin|[]]]; discriminate Hin.
    + inversion H. right. eauto.
Qed.

Lemma DialWithDialer_result_witness :
  DialWithDialer env_fast dialer_1s "tcp" "peer:4000" (Some config_NN) []
    = (Ret (Some (mkConn 3 config_NN true), None),
       [EvTimer 1000000000; EvDial "tcp" "peer:4000"; EvHandshake 3]) /\
  exists c, Some config_NN = Some c /\ checkRequirements true c = None.
Proof.
  assert (DialWithDialer env_fast dialer_1s "tcp" "peer:4000" (Some config_NN) []
          = (Ret (Some (mkConn 3 config_NN true), None),
             [EvTimer 1000000000; EvDial "tcp" "peer:4000"; EvHandshake 3])) as H
    by reflexivity.
  split; [exact H|].
  destruct (DialWithDialer_result env_fast dialer_1s "tcp" "peer:4000"
              (Some config_NN) [] _ _ H) as (c & Hc & Hr & _).
  exists c. split; assumption.
Defined.

(** X7: [DialWithDialer] closes a raw connection exactly when the config
    passed the check, the dial returned that connection and the handshake
    step yielded an error; it closes nothing on a config error, on a failed
    dial or after a handshake that succeeded. *)
Theorem DialWithDialer_closes_iff (env : Env) (dialer : Dialer) (network addr : string)
    (c : Config) (tr tr' : list event) (out : outcome (option Conn * option error))
    (rc : nat) :
  DialWithDialer env dialer network addr (Some c) tr = (out, tr') ->
  (In (EvClose rc) (drop (length tr) tr') <->
   checkRequirements true c = None /\
   dialer_Dial env dialer network addr = inl rc /\
   handshake_step env (dial_timeout env dialer) (Client rc c) <> None).
Proof.
  destruct (checkRequirements true c) as [e|] eqn:Hc.
  - rewrite (DialWithDialer_check_fails env dialer network addr c e tr Hc).
    intros H. inversion H. rewrite drop_all. simpl.
    split; [intros [] | intros (H' & _); discriminate H'].
  - rewrite (DialWithDialer_run env dialer network addr c tr Hc).
    destruct (dialer_Dial env dialer network addr) as [rc'|e].
    + destruct (handshake_step env (dial_timeout env dialer) (Client rc' c))
        as [e|] eqn:Hh; intros H; inversion H; rewrite drop_app_length; split.
      * intros Hin. apply not_in_timer_prefix in Hin; [|intros d; discriminate].
        simpl in Hin. destruct Hin as [Hin|[Hin|[Hin|[]]]]; try discriminate Hin.
        inversion Hin; subst rc'. rewrite Hh. repeat split; congruence.
      * intros (_ & Hd & _). inversion Hd; subst rc'.
        apply in_or_app. right. simpl. auto.
      * intros Hin. apply not_in_timer_prefix in Hin; [|intros d; discriminate].
        simpl in Hin. destruct Hin as [Hin|[Hin|[]]]; discriminate Hin.
      * intros (_ & Hd & Hn). inversion Hd; subst rc'. congruence.
    + intros H; inversion H; rewrite drop_app_length; split.
      * intros Hin. apply not_in_timer_prefix in Hin; [|intros d; discriminate].
        simpl in Hin. destruct Hin as [Hin|[]]; discriminate Hin.
      * intros (_ & Hd & _). discriminate Hd.
Qed.

Lemma DialWithDialer_closes_iff_witness :
  DialWithDialer env_ok dialer_1s "tcp" "peer:4000" (Some config_NN) []
    = (Ret (None, Some timeoutError),
       [EvTimer 1000000000; EvDial "tcp" "peer:4000"; EvHandshake 3; EvClose 3]) /\
  handshake_step env_ok (dial_timeout env_ok dialer_1s) (Client 3 config_NN) <> None.
Proof.
  assert (DialWithDialer env_ok dialer_1s "tcp" "peer:4000" (Some config_NN) []
          = (Ret (None, Some timeoutError),
             [EvTimer 1000000000; EvDial "tcp" "peer:4000"; EvHandshake 3; EvClose 3])) as H
    by reflexivity.
  split; [exact H|].
  apply (proj1 (DialWithDialer_closes_iff env_ok dialer_1s "tcp" "peer:4000"
                  config_NN [] _ _ 3%nat H)).
  simpl. auto.
Defined.

Lemma dial_timeout_new_Dialer (env : Env) : dial_timeout env new_Dialer = 0.
Proof. reflexivity. Qed.

(** X8: [Dial], which dials with a fresh [net.Dialer], never starts the
    timer, and its own timeout error is never returned: the result is a
    timeout error only when the dial or the handshake itself returned that
    error, however long the handshake takes. *)
Theorem Dial_has_no_timeout (env : Env) (network addr : string) (cfg : option Config)
    (tr tr' : list event) (out : outcome (option Conn * option error)) :
  Dial env network addr cfg tr = (out, tr') ->
  (forall d, ~ In (EvTimer d) (drop (length tr) tr')) /\
  (out = Ret (None, Some timeoutError) ->
     dialer_Dial env new_Dialer network addr = inr timeoutError \/
     exists rc c, cfg = Some c /\
       dialer_Dial env new_Dialer network addr = inl rc /\
       Conn_Handshake env (Client rc c) = Some timeoutError).
Proof.
  unfold Dial. destruct cfg as [c|].
  - destruct (checkRequirements true c) as [e|] eqn:Hc.
    + rewrite (DialWithDialer_check_fails env new_Dialer network addr c e tr Hc).
      intros H. inversion H. rewrite drop_all. split; [intros d []|].
      intros H'; discriminate H'.
    + rewrite (DialWithDialer_run env new_Dialer network addr c tr Hc).
      rewrite dial_timeout_new_Dialer. unfold handshake_step. simpl.
      destruct (dialer_Dial env new_Dialer network addr) as [rc|e].
      * destruct (Conn_Handshake env (Client rc c)) as [e|] eqn:Hh;
          intros H; inversion H; rewrite drop_app_length; split.
        -- intros d Hin. simpl in Hin.
           destruct Hin as [Hin|[Hin|[Hin|[]]]]; discriminate Hin.
        -- intros Ht. inversion Ht. subst e. right. exists rc, c. auto.
        -- intros d Hin. simpl in Hin. destruct Hin as [Hin|[Hin|[]]]; discriminate Hin.
        -- intros Ht; discriminate Ht.
      * intros H; inversion H; rewrite drop_app_length; split.
        -- intros d Hin. simpl in Hin. destruct Hin as [Hin|[]]; discriminate Hin.
        -- intros Ht. inversion Ht. left. reflexivity.
  - intros H. inversion H. rewrite drop_all. split; [intros d []|].
    intros H'; discriminate H'.
Qed.

Lemma Dial_has_no_timeout_witness :
  Dial env_ok "tcp" "peer:4000" (Some config_NN) []
    = (Ret (Some (mkConn 3 config_NN true), None),
       [EvDial "tcp" "peer:4000"; EvHandshake 3]) /\
  forall d, ~ In (EvTimer d) [EvDial "tcp" "peer:4000"; EvHandshake 3].
Proof.
  assert (Dial env_ok "tcp" "peer:4000" (Some config_NN) []
          = (Ret (Some (mkConn 3 config_NN true), None),
             [EvDial "tcp" "peer:4000"; EvHandshake 3])) as H
    by reflexivity.
  split; [exact H|].
  exact (proj1 (Dial_has_no_timeout env_ok "tcp" "peer:4000" (Some config_NN) [] _ _ H)).
Defined.

(** X9: when a timeout is set and the handshake goroutine reports before
    the timer sends, the handshake decides the result: its error closes the
    raw connection and is returned, and on success the connection is
    returned open. *)
Theorem DialWithDialer_handshake_in_time (env : Env) (dialer : Dialer)
    (network addr : string) (c : Config) (rc : nat) (tr : list event) :
  checkRequirements true c = None ->
  dialer_Dial env dialer network addr = inl rc ->
  dial_timeout env dialer <> 0 ->
  handshake_sends_at env < timer_sends_at (dial_timeout env dialer) ->
  DialWithDialer env dialer network addr (Some c) tr
  = match Conn_Handshake env (Client rc c) with
    | Some e =>
        (Ret (None, Some e),
         tr ++ [EvTimer (dial_timeout env dialer); EvDial network addr;
                EvHandshake rc; EvClose rc])
    | None =>
        (Ret (Some (Client rc c), None),
         tr ++ [EvTimer (dial_timeout env dialer); EvDial network addr;
                EvHandshake rc])
    end.
Proof.
  intros Hc Hd Hne Hlt.
  rewrite (DialWithDialer_run env dialer network addr c tr Hc), Hd.
  unfold handshake_step, receive_first, timer_sends_first.
  rewrite (proj2 (Z.eqb_neq _ 0) Hne).
  rewrite (proj2 (Z.ltb_ge _ _)) by lia.
  rewrite (proj2 (Z.eqb_neq _ _)) by lia.
  simpl. destruct (Conn_Handshake env (Client rc c)); reflexivity.
Qed.

Lemma DialWithDialer_handshake_in_time_witness :
  checkRequirements true config_NN = None /\
  DialWithDialer env_fast dialer_1s "tcp" "peer:4000" (Some config_NN) []
    = (Ret (Some (Client 3 config_NN), None),
       [EvTimer 1000000000; EvDial "tcp" "peer:4000"; EvHandshake 3]).
Proof.
  split; [reflexivity|].
  exact (DialWithDialer_handshake_in_time env_fast dialer_1s "tcp" "peer:4000"
           config_NN 3 [] eq_refl eq_refl
           ltac:(vm_compute; discriminate) ltac:(vm_compute; reflexivity)).
Defined.



(** ** Further properties of the key stores *)

Lemma LoadNoiseRootPublicKey_cases (fs : FS) (name : string) :
  (exists k, LoadNoiseRootPublicKey name fs = (Ret (Some k, None), fs) /\
             length k = 32%nat /\ key_file_ok 64 fs name) \/
  (exists e, LoadNoiseRootPublicKey name fs = (Ret (None, Some e), fs) /\
             ~ key_file_ok 64 fs name).
Proof.
  unfold LoadNoiseRootPublicKey, key_file_ok, bind, lift, ret, ioutil_ReadFile.
  destruct (fs !! name) as [f|] eqn:Hf; cbv beta iota.
  - destruct (owner_can_read f) eqn:Hr; cbv beta iota.
    + destruct (Nat.eqb_spec (length (f_data f)) (32 * 2)) as [Hl|Hl];
        cbn [negb]; cbv beta iota.
      * destruct (Decode_total (repeat x00 32) (f_data f))
          as (d & err & E & L & V); [rewrite repeat_length; lia|].
        rewrite E. cbv beta iota. destruct err as [e|].
        -- right. exists e. split; [reflexivity|].
           intros (f' & Hf' & _ & _ & Hx). inversion Hf'; subst f'.
           assert (Some e = None) as A by (apply V; rewrite Hl; split; [reflexivity|exact Hx]).
           discriminate A.
        -- left. exists d. split; [reflexivity|]. split.
           ++ rewrite L, repeat_length. reflexivity.
           ++ exists f. repeat split; try assumption. apply V. reflexivity.
      * right. eexists. split; [reflexivity|].
        intros (f' & Hf' & _ & Hl' & _). inversion Hf'; subst f'. contradiction.
    + right. eexists. split; [reflexivity|].
      intros (f' & Hf' & Hr' & _). inversion Hf'; subst f'. congruence.
  - right. eexists. split; [reflexivity|].
    intros (f' & Hf' & _). discriminate Hf'.
Qed.

Lemma LoadNoiseRootPrivateKey_cases (fs : FS) (name : string) :
  (exists k, LoadNoiseRootPrivateKey name fs = (Ret (Some k, None), fs) /\
             length k = 32%nat /\ key_file_ok 64 fs name) \/
  (exists e, LoadNoiseRootPrivateKey name fs = (Ret (None, Some e), fs) /\
             ~ key_file_ok 64 fs name).
Proof.
  unfold LoadNoiseRootPrivateKey, key_file_ok, bind, lift, ret, ioutil_ReadFile.
  destruct (fs !! name) as [f|] eqn:Hf; cbv beta iota.
  - destruct (owner_can_read f) eqn:Hr; cbv beta iota.
    + destruct (Nat.eqb_spec (length (f_data f)) (32 * 2)) as [Hl|Hl];
        cbn [negb]; cbv beta iota.
      * destruct (Decode_total (repeat x00 32) (f_data f))
          as (d & err & E & L & V); [rewrite repeat_length; lia|].
        rewrite E. cbv beta iota. destruct err as [e|].
        -- right. exists e. split; [reflexivity|].
           intros (f' & Hf' & _ & _ & Hx). inversion Hf'; subst f'.
           assert (Some e = None) as A by (apply V; rewrite Hl; split; [reflexivity|exact Hx]).
           discriminate A.
        -- left. exists d. split; [reflexivity|]. split.
           ++ rewrite L, repeat_length. reflexivity.
           ++ exists f. repeat split; try assumption. apply V. reflexivity.
      * right. eexists. split; [reflexivity|].
        intros (f' & Hf' & _ & Hl' & _). inversion Hf'; subst f'. contradiction.
    + right. eexists. split; [reflexivity|].
      intros (f' & Hf' & Hr' & _). inversion Hf'; subst f'. congruence.
  - right. eexists. split; [reflexivity|].
    intros (f' & Hf' & _). discriminate Hf'.
Qed.

Lemma LoadNoiseKeyPair_cases (fs : FS) (name : string) :
  (exists kp, LoadNoiseKeyPair name fs = (Ret (Some kp, None), fs) /\
              KeyPair_wf kp /\ key_file_ok 128 fs name) \/
  (exists e, LoadNoiseKeyPair name fs = (Ret (None, Some e), fs) /\
             ~ key_file_ok 128 fs name).
Proof.
  unfold LoadNoiseKeyPair, key_file_ok, bind, lift, ret, ioutil_ReadFile.
  destruct (fs !! name) as [f|] eqn:Hf; cbv beta iota.
  - destruct (owner_can_read f) eqn:Hr; cbv beta iota.
    + destruct (Nat.eqb_spec (length (f_data f)) (64 * 2)) as [Hl|Hl];
        cbn [negb]; cbv beta iota.
      * cbn [PrivateKey PublicKey].
        destruct (Decode_total (repeat x00 32) (take 64 (f_data f)))
          as (d1 & e1 & E1 & L1 & V1); [rewrite length_take, repeat_length; lia|].
        destruct (Decode_total (repeat x00 32) (drop 64 (f_data f)))
          as (d2 & e2 & E2 & L2 & V2); [rewrite length_drop, repeat_length; lia|].
        assert (Nat.even (length (take 64 (f_data f))) = true) as Ev1
          by (rewrite length_take, Hl; reflexivity).
        assert (Nat.even (length (drop 64 (f_data f))) = true) as Ev2
          by (rewrite length_drop, Hl; reflexivity).
        rewrite E1. cbv beta iota. destruct e1 as [e1|].
        -- right. exists e1. split; [reflexivity|].
           intros (f' & Hf' & _ & _ & Hx). inversion Hf'; subst f'.
           rewrite (forallb_take_drop _ 64) in Hx. apply andb_true_iff in Hx.
           assert (Some e1 = None) as A by (apply V1; tauto). discriminate A.
        -- rewrite E2. cbv beta iota. destruct e2 as [e2|].
           ++ right. exists e2. split; [reflexivity|].
              intros (f' & Hf' & _ & _ & Hx). inversion Hf'; subst f'.
              rewrite (forallb_take_drop _ 64) in Hx. apply andb_true_iff in Hx.
              assert (Some e2 = None) as A by (apply V2; tauto). discriminate A.
           ++ left. eexists. split; [reflexivity|]. split.
              ** split; cbn [PrivateKey PublicKey];
                   [rewrite L1 | rewrite L2]; apply repeat_length.
              ** exists f. repeat split; try assumption.
                 rewrite (forallb_take_drop _ 64).
                 rewrite (proj2 (proj1 V1 eq_refl)), (proj2 (proj1 V2 eq_refl)).
                 reflexivity.
      * right. eexists. split; [reflexivity|].
        intros (f' & Hf' & _ & Hl' & _). inversion Hf'; subst f'. contradiction.
    + right. eexists. split; [reflexivity|].
      intros (f' & Hf' & Hr' & _). inversion Hf'; subst f'. congruence.
  - right. eexists. split; [reflexivity|].
    intros (f' & Hf' & _). discriminate Hf'.
Qed.

(** X11: the two loaders of a root key return a key exactly when the file
    exists, is readable by its owner and holds 64 hexadecimal digits, of
    either letter case; the key they return has 32 bytes. *)
Theorem root_key_loaders_accept_iff (fs : FS) (name : string) :
  ((exists k, LoadNoiseRootPublicKey name fs = (Ret (Some k, None), fs))
     <-> key_file_ok 64 fs name) /\
  ((exists k, LoadNoiseRootPrivateKey name fs = (Ret (Some k, None), fs))
     <-> key_file_ok 64 fs name) /\
  (forall k fs', LoadNoiseRootPublicKey name fs = (Ret (Some k, None), fs') ->
     length k = 32%nat) /\
  (forall k fs', LoadNoiseRootPrivateKey name fs = (Ret (Some k, None), fs') ->
     length k = 32%nat).
Proof.
  destruct (LoadNoiseRootPublicKey_cases fs name) as [(k1 & E1 & L1 & O1)|(e1 & E1 & N1)];
  destruct (LoadNoiseRootPrivateKey_cases fs name) as [(k2 & E2 & L2 & O2)|(e2 & E2 & N2)];
    rewrite E1, E2; repeat split;
    try (intros [k H]; solve [assumption | discriminate H | inversion H]);
    try (intros H; solve [eauto | contradiction]);
    try (intros k fs' H; inversion H; subst; assumption).
Qed.

(** X12: [LoadNoiseKeyPair] returns a key pair exactly when the file
    exists, is readable by its owner and holds 128 hexadecimal digits; both
    fields of the pair it returns have 32 bytes. *)
Theorem LoadNoiseKeyPair_accepts_iff (fs : FS) (name : string) :
  ((exists kp, LoadNoiseKeyPair name fs = (Ret (Some kp, None), fs))
     <-> key_file_ok 128 fs name) /\
  (forall kp fs', LoadNoiseKeyPair name fs = (Ret (Some kp, None), fs') ->
     KeyPair_wf kp).
Proof.
  destruct (LoadNoiseKeyPair_cases fs name) as [(k1 & E1 & L1 & O1)|(e1 & E1 & N1)];
    rewrite E1; split.
  - split; [intros _; exact O1 | intros _; eauto].
  - intros kp fs' H. inversion H. subst kp. exact L1.
  - split; [intros [kp H]; discriminate H | intros H; contradiction].
  - intros kp fs' H. discriminate H.
Qed.

(** X13: on every file system and for every path, a missing file included,
    the three loaders return without a panic, leave the file system as it
    was, and return either a key and no error or an error and no key. *)
Theorem loaders_return (fs : FS) (name : string) :
  ((exists k, LoadNoiseRootPublicKey name fs = (Ret (Some k, None), fs)) \/
   (exists e, LoadNoiseRootPublicKey name fs = (Ret (None, Some e), fs))) /\
  ((exists k, LoadNoiseRootPrivateKey name fs = (Ret (Some k, None), fs)) \/
   (exists e, LoadNoiseRootPrivateKey name fs = (Ret (None, Some e), fs))) /\
  ((exists kp, LoadNoiseKeyPair name fs = (Ret (Some kp, None), fs)) \/
   (exists e, LoadNoiseKeyPair name fs = (Ret (None, Some e), fs))).
Proof.
  split; [|split].
  - destruct (LoadNoiseRootPublicKey_cases fs name) as [(k & E & _)|(e & E & _)]; eauto.
  - destruct (LoadNoiseRootPrivateKey_cases fs name) as [(k & E & _)|(e & E & _)]; eauto.
  - destruct (LoadNoiseKeyPair_cases fs name) as [(k & E & _)|(e & E & _)]; eauto.
Qed.

(** X14: a root private key that [LoadNoiseRootPrivateKey] returns has 32
    bytes, while the ed25519 package signs with keys of 64: handing the
    loaded key to [CreateStaticPublicKeyProof] panics, for every key file
    and every static key pair. *)
Theorem loaded_root_key_cannot_sign
    (ed25519_sign : list byte -> list byte -> list byte)
    (fs fs' : FS) (name : string) (k : list byte) (keyPair : KeyPair) :
  LoadNoiseRootPrivateKey name fs = (Ret (Some k, None), fs') ->
  exists p, CreateStaticPublicKeyProof ed25519_sign k keyPair = Panic p.
Proof.
  intros H.
  assert (length k = 32%nat) as L.
  { destruct (LoadNoiseRootPrivateKey_cases fs name) as [(k' & E & L & _)|(e & E & _)];
      rewrite E in H; inversion H; subst; exact L. }
  eexists. unfold CreateStaticPublicKeyProof, PrivateKey_Sign. rewrite L. reflexivity.
Qed.

Lemma loaded_root_key_cannot_sign_witness :
  LoadNoiseRootPrivateKey "root.priv" fs_root_private
    = (Ret (Some sample_seed, None), fs_root_private) /\
  exists p, CreateStaticPublicKeyProof (fun _ m => m) sample_seed sample_keyPair = Panic p.
Proof.
  assert (LoadNoiseRootPrivateKey "root.priv" fs_root_private
          = (Ret (Some sample_seed, None), fs_root_private)) as H
    by (vm_compute; reflexivity).
  split; [exact H|].
  exact (loaded_root_key_cannot_sign (fun _ m => m) fs_root_private fs_root_private
           "root.priv" sample_seed sample_keyPair H).
Defined.

Lemma fromHexChar_same_letter (v c : byte) :
  (same_letter c (hex.table_at (hex.hi v)) ->
   hex.fromHexChar c = (hex.hi v, true)) /\
  (same_letter c (hex.table_at (hex.lo v)) ->
   hex.fromHexChar c = (hex.lo v, true)).
Proof. destruct v; split; intros [-> | ->]; reflexivity. Qed.

Lemma same_letter_upper (l : list byte) :
  Forall2 same_letter (map hex_to_upper l) l.
Proof. induction l; constructor; [right; reflexivity | assumption]. Qed.

(** [Decode] reads the digits of [src] in either letter case. *)
Lemma Decode_from_spelled (src : list byte) :
  forall (txt : list byte) (i : nat) (dst : list byte),
    Forall2 same_letter txt (hex.digits src) ->
    (i + length src <= length dst)%nat ->
    hex.Decode_from i dst txt
    = Ret (take i dst ++ src ++ drop (i + length src) dst, None).
Proof.
  induction src as [|v src IH]; intros txt i dst Hs H.
  - inversion Hs; subst. simpl. rewrite Nat.add_0_r, take_drop. reflexivity.
  - change (hex.digits (v :: src))
      with (hex.table_at (hex.hi v) :: hex.table_at (hex.lo v) :: hex.digits src) in Hs.
    inversion Hs as [|p ? txt1 ? Hp Hs1]; subst.
    inversion Hs1 as [|q ? txt2 ? Hq Hs2]; subst.
    cbn [hex.Decode_from]. cbn [length] in H.
    rewrite (proj1 (fromHexChar_same_letter v p) Hp).
    rewrite (proj2 (fromHexChar_same_letter v q) Hq). cbn [negb].
    destruct (digit_roundtrip v) as (_ & _ & ->).
    rewrite store_lt by lia. cbn [obind].
    rewrite (IH txt2) by (try assumption; rewrite length_insert; lia).
    replace (i + 1)%nat with (S i) by lia.
    rewrite (take_S_r _ i v) by (apply list_lookup_insert_eq; lia).
    rewrite take_insert_ge by lia.
    rewrite drop_insert_lt by lia.
    replace (i + length (v :: src))%nat with (S i + length src)%nat
      by (cbn [length]; lia).
    rewrite <- app_assoc. reflexivity.
Qed.

Lemma Decode_spelled (dst src txt : list byte) :
  length dst = length src ->
  Forall2 same_letter txt (hex.digits src) ->
  hex.Decode dst txt = Ret (src, None).
Proof.
  intros H Hs. unfold hex.Decode.
  rewrite (Forall2_length _ _ _ Hs), length_digits.
  replace (Nat.odd (2 * length src)) with false
    by (symmetry; rewrite <- Nat.negb_even, Nat.even_mul; reflexivity).
  rewrite (Decode_from_spelled src txt 0 dst Hs) by lia.
  rewrite take_0, drop_ge by lia. rewrite app_nil_r. reflexivity.
Qed.

(** X15: the loaders of a root key return the 32 bytes that the file
    spells: for a readable file that holds the hexadecimal digits of [k], in
    lower case, in upper case or mixed, both return [k] and no error. *)
Theorem root_key_loaders_decode (fs : FS) (name : string) (f : file) (k : list byte) :
  fs !! name = Some f ->
  owner_can_read f = true ->
  length k = 32%nat ->
  Forall2 same_letter (f_data f) (hex.digits k) ->
  LoadNoiseRootPublicKey name fs = (Ret (Some k, None), fs) /\
  LoadNoiseRootPrivateKey name fs = (Ret (Some k, None), fs).
Proof.
  intros Hf Hr Hk Hs.
  assert (length (f_data f) = 64%nat) as Hl
    by (rewrite (Forall2_length _ _ _ Hs), length_digits, Hk; reflexivity).
  split.
  - unfold LoadNoiseRootPublicKey. unfold bind at 1.
    rewrite (ReadFile_readable fs name f Hf Hr), Hl. cbn [Nat.eqb Nat.mul Nat.add negb].
    unfold bind, lift.
    rewrite (Decode_spelled _ k) by (try assumption; rewrite repeat_length, Hk; reflexivity).
    reflexivity.
  - unfold LoadNoiseRootPrivateKey. unfold bind at 1.
    rewrite (ReadFile_readable fs name f Hf Hr), Hl. cbn [Nat.eqb Nat.mul Nat.add negb].
    unfold bind, lift.
    rewrite (Decode_spelled _ k) by (try assumption; rewrite repeat_length, Hk; reflexivity).
    reflexivity.
Qed.

Lemma root_key_loaders_decode_witness :
  fs_upper !! "root.priv"
    = Some (mkFile (map hex_to_upper (hex.digits (repeat xab 32))) perm_0400) /\
  LoadNoiseRootPrivateKey "root.priv" fs_upper = (Ret (Some (repeat xab 32), None), fs_upper).
Proof.
  assert (fs_upper !! "root.priv"
          = Some (mkFile (map hex_to_upper (hex.digits (repeat xab 32))) perm_0400)) as L
    by apply lookup_insert_eq.
  split; [exact L|].
  exact (proj2 (root_key_loaders_decode fs_upper "root.priv" _ (repeat xab 32)
                  L eq_refl eq_refl (same_letter_upper _))).
Defined.

(** X16: when the write fails, [GenerateAndSaveNoiseKeyPair] returns its
    own error, "could not write on file at path", whatever the error of the
    write was; it does so for a file that exists and that its owner may not
    write. *)
Theorem save_keypair_error (fs : FS) (name : string) (kp : KeyPair) :
  KeyPair_wf kp ->
  (forall e fs', GenerateAndSaveNoiseKeyPair kp name fs = (Ret (Some e), fs') ->
     e = errors_New "Noise: could not write on file at path") /\
  (forall f, fs !! name = Some f -> owner_can_write f = false ->
     GenerateAndSaveNoiseKeyPair kp name fs
     = (Ret (Some (errors_New "Noise: could not write on file at path")), fs)).
Proof.
  intros Hwf. rewrite (save_keypair_data fs name kp Hwf).
  unfold bind, ret. split.
  - intros e fs'.
    destruct (WriteFile_cases name
                (hex.digits (PrivateKey kp) ++ hex.digits (PublicKey kp)) perm_0644 fs)
      as [(e0 & ->) | (id & mode & _ & -> & _)]; intros H; inversion H; reflexivity.
  - intros f Hf Hw. unfold ioutil_WriteFile.
    unfold lookup, FS_lookup in Hf.
    destruct (fs_resolve fs name) as [id|]; [|discriminate Hf].
    rewrite Hf, Hw. reflexivity.
Qed.

Lemma save_keypair_error_witness :
  KeyPair_wf sample_keyPair /\
  GenerateAndSaveNoiseKeyPair sample_keyPair "static.key" fs_readonly
  = (Ret (Some (errors_New "Noise: could not write on file at path")), fs_readonly).
Proof.
  assert (KeyPair_wf sample_keyPair) as W by (split; reflexivity).
  split; [exact W|].
  apply (proj2 (save_keypair_error fs_readonly "static.key" sample_keyPair W)
           (mkFile [] perm_0400)).
  - unfold fs_readonly. rewrite (fs_cwd_lookup _ "static.key" "static.key" eq_refl).
    apply lookup_insert_eq.
  - reflexivity.
Defined.

Lemma created_mode_testbit (fs : FS) (perm n : Z) :
  0 <= n ->
  Z.testbit (created_mode fs perm) n
  = Z.testbit perm n && negb (Z.testbit (fs_umask fs) n).
Proof.
  intros Hn. unfold created_mode. rewrite Z.land_spec, Z.lnot_spec by exact Hn.
  reflexivity.
Qed.

(** X17: a second save to the same path replaces the first: when the path
    names an absent file that the system lets be created, and the umask
    leaves the owner's read and write bits, saving one pair and then another
    succeeds twice, the file then holds the digits of the second pair only,
    and the load returns the second. *)
Theorem save_twice_keeps_last (fs : FS) (name id : string) (kp1 kp2 : KeyPair) :
  KeyPair_wf kp1 -> KeyPair_wf kp2 ->
  fs_resolve fs name = Some id ->
  fs_files fs !! id = None ->
  fs_accepts fs id = true ->
  Z.testbit (fs_umask fs) 7 = false ->
  Z.testbit (fs_umask fs) 8 = false ->
  exists fs1 fs2 f,
    GenerateAndSaveNoiseKeyPair kp1 name fs = (Ret None, fs1) /\
    GenerateAndSaveNoiseKeyPair kp2 name fs1 = (Ret None, fs2) /\
    fs2 !! name = Some f /\
    f_data f = hex.digits (PrivateKey kp2) ++ hex.digits (PublicKey kp2) /\
    LoadNoiseKeyPair name fs2 = (Ret (Some kp2, None), fs2).
Proof.
  intros W1 W2 Hr Hf Ha Hu7 Hu8.
  set (m := created_mode fs perm_0644).
  set (f1 := mkFile (hex.digits (PrivateKey kp1) ++ hex.digits (PublicKey kp1)) m).
  set (f2 := mkFile (hex.digits (PrivateKey kp2) ++ hex.digits (PublicKey kp2)) m).
  assert (Z.testbit m 7 = true) as Hm7
    by (unfold m; rewrite created_mode_testbit, Hu7 by lia; reflexivity).
  assert (Z.testbit m 8 = true) as Hm8
    by (unfold m; rewrite created_mode_testbit, Hu8 by lia; reflexivity).
  assert (fs_files (fs_set id f1 fs) !! id = Some f1) as Hf1
    by (cbn [fs_set fs_files]; apply lookup_insert_eq).
  exists (fs_set id f1 fs), (fs_set id f2 (fs_set id f1 fs)), f2.
  split; [|split; [|split; [|split]]].
  - rewrite (save_keypair_data fs name kp1 W1). unfold bind, ret.
    rewrite (WriteFile_ok name id _ _ fs Hr Ha) by (intros f0 H0; congruence).
    rewrite Hf. reflexivity.
  - rewrite (save_keypair_data _ name kp2 W2). unfold bind, ret.
    rewrite (WriteFile_ok name id _ _ (fs_set id f1 fs) Hr Ha)
      by (intros f0 H0; rewrite Hf1 in H0; inversion H0; exact Hm7).
    rewrite Hf1. reflexivity.
  - apply fs_set_lookup_eq. exact Hr.
  - reflexivity.
  - apply (load_keypair_digits _ name f2 kp2 W2);
      [apply fs_set_lookup_eq; exact Hr | exact Hm8 | reflexivity].
Qed.

Lemma save_twice_keeps_last_witness :
  KeyPair_wf sample_keyPair /\ KeyPair_wf other_keyPair /\
  exists fs1 fs2,
    GenerateAndSaveNoiseKeyPair sample_keyPair "static.key" (fs_cwd ∅) = (Ret None, fs1) /\
    GenerateAndSaveNoiseKeyPair other_keyPair "static.key" fs1 = (Ret None, fs2) /\
    LoadNoiseKeyPair "static.key" fs2 = (Ret (Some other_keyPair, None), fs2).
Proof.
  assert (KeyPair_wf sample_keyPair) as W1 by (split; reflexivity).
  assert (KeyPair_wf other_keyPair) as W2 by (split; reflexivity).
  split; [exact W1|]. split; [exact W2|].
  destruct (save_twice_keeps_last (fs_cwd ∅) "static.key" "static.key"
              sample_keyPair other_keyPair W1 W2 eq_refl (lookup_empty _)
              eq_refl eq_refl eq_refl) as (fs1 & fs2 & f & H1 & H2 & _ & _ & H3).
  exists fs1, fs2. auto.
Defined.

Lemma LoadNoiseKeyPair_lookup (fs1 fs2 : FS) (name : string) :
  fs1 !! name = fs2 !! name ->
  fst (LoadNoiseKeyPair name fs1) = fst (LoadNoiseKeyPair name fs2).
Proof.
  intros H. unfold LoadNoiseKeyPair, bind, lift, ret, ioutil_ReadFile. rewrite H.
  destruct (fs2 !! name) as [f|]; cbv beta iota; [|reflexivity].
  destruct (owner_can_read f); cbv beta iota; [|reflexivity].
  destruct (negb (length (f_data f) =? 64 * 2)%nat); cbv beta iota; [reflexivity|].
  cbn [PrivateKey PublicKey].
  destruct (hex.Decode (repeat x00 32) (take 64 (f_data f))) as [[d1 [e1|]]|p1];
    cbv beta iota; try reflexivity.
  destruct (hex.Decode (repeat x00 32) (drop 64 (f_data f))) as [[d2 [e2|]]|p2];
    cbv beta iota; reflexivity.
Qed.

(** X18: a save writes the file that the given path names and no other:
    whatever it returns, every path that names another file holds what it
    held, and a load from such a path returns what it returned before. *)
Theorem save_keypair_frame (fs fs' : FS) (name other : string) (kp : KeyPair)
    (out : outcome (option error)) :
  fs_resolve fs other <> fs_resolve fs name ->
  GenerateAndSaveNoiseKeyPair kp name fs = (out, fs') ->
  fs' !! other = fs !! other /\
  fst (LoadNoiseKeyPair other fs') = fst (LoadNoiseKeyPair other fs).
Proof.
  intros Hne H.
  assert (fs' !! other = fs !! other) as Hl.
  { revert H. unfold GenerateAndSaveNoiseKeyPair, bind, lift, ret.
    destruct (hex.Encode _ (PrivateKey kp)) as [front|p]; cbv beta iota;
      [|intros H; inversion H; reflexivity].
    destruct (hex.Encode _ (PublicKey kp)) as [back|p]; cbv beta iota;
      [|intros H; inversion H; reflexivity].
    match goal with
    | |- context [ioutil_WriteFile name ?d perm_0644 fs] =>
        destruct (WriteFile_cases name d perm_0644 fs)
          as [(e & ->) | (id & mode & Hr & -> & _)]
    end; intros H; inversion H; [reflexivity|].
    apply fs_set_lookup_ne. congruence. }
  split; [exact Hl|]. apply LoadNoiseKeyPair_lookup, Hl.
Qed.

Lemma save_keypair_frame_witness :
  fs_resolve fs_root_private "root.priv" <> fs_resolve fs_root_private "static.key" /\
  fst (LoadNoiseKeyPair "root.priv"
         (snd (GenerateAndSaveNoiseKeyPair sample_keyPair "static.key" fs_root_private)))
  = fst (LoadNoiseKeyPair "root.priv" fs_root_private).
Proof.
  assert (fs_resolve fs_root_private "root.priv"
          <> fs_resolve fs_root_private "static.key") as Hne
    by (intros H; vm_compute in H; discriminate H).
  split; [exact Hne|].
  exact (proj2 (save_keypair_frame fs_root_private _ "static.key" "root.priv"
                  sample_keyPair _ Hne (surjective_pairing _))).
Defined.

(** Two paths of one file, and a path through a directory that is not
    there: after saving to [static.key] the pair is read back through
    [./static.key], and a save to [nodir/static.key] fails. *)
Lemma save_through_alias_and_missing_directory :
  (exists fs',
     GenerateAndSaveNoiseKeyPair sample_keyPair "static.key" (fs_cwd ∅) = (Ret None, fs') /\
     LoadNoiseKeyPair "./static.key" fs' = (Ret (Some sample_keyPair, None), fs')) /\
  GenerateAndSaveNoiseKeyPair sample_keyPair "nodir/static.key" (fs_cwd ∅)
  = (Ret (Some (errors_New "Noise: could not write on file at path")), fs_cwd ∅).
Proof.
  split; [eexists; split|]; vm_compute; reflexivity.
Qed.

(** X19: [GenerateAndSaveNoiseRootKeyPair] panics exactly when a key is
    longer than 32 bytes, the public key being encoded first, and then it
    has written nothing; with keys of at most 32 bytes it returns. *)
Theorem root_keypair_save_bounds (fs : FS) (publicKey privateKey : list byte)
    (privFile pubFile : string) :
  ((length publicKey <= 32)%nat -> (length privateKey <= 32)%nat ->
   exists err fs',
     GenerateAndSaveNoiseRootKeyPair publicKey privateKey privFile pubFile fs
     = (Ret err, fs')) /\
  ((32 < length publicKey)%nat \/ (32 < length privateKey)%nat ->
   GenerateAndSaveNoiseRootKeyPair publicKey privateKey privFile pubFile fs
   = (Panic PanicIndexOutOfRange, fs)).
Proof.
  unfold GenerateAndSaveNoiseRootKeyPair, hex.Encode. split.
  - intros Hpub Hpriv. unfold bind at 1. unfold lift at 1.
    rewrite Encode_from_ok by (rewrite repeat_length; lia).
    unfold bind at 1. unfold lift at 1.
    rewrite Encode_from_ok by (rewrite repeat_length; lia).
    unfold bind, ret.
    match goal with
    | |- context [ioutil_WriteFile privFile ?d perm_0400 fs] =>
        destruct (WriteFile_cases privFile d perm_0400 fs)
          as [(e & ->) | (id & mode & _ & -> & _)]
    end; [eauto|].
    match goal with
    | |- context [ioutil_WriteFile pubFile ?d perm_0644 ?fs1] =>
        destruct (WriteFile_cases pubFile d perm_0644 fs1)
          as [(e & ->) | (id2 & mode2 & _ & -> & _)]
    end; eauto.
  - intros Hlong. unfold bind at 1. unfold lift at 1.
    destruct (Nat.lt_ge_cases 32 (length publicKey)) as [Hpub|Hpub].
    + rewrite Encode_from_short by (rewrite ?repeat_length; lia). reflexivity.
    + rewrite Encode_from_ok by (rewrite repeat_length; lia).
      unfold bind at 1. unfold lift at 1.
      rewrite Encode_from_short by (rewrite ?repeat_length; lia). reflexivity.
Qed.

Lemma save_without_keys_writes (fs : FS) (privFile pubFile : string) :
  GenerateAndSaveNoiseRootKeyPair [] [] privFile pubFile fs
  = bind (ioutil_WriteFile privFile (repeat x00 64) perm_0400)
      (fun err =>
         match err with
         | Some e => ret (Some e)
         | None =>
             bind (ioutil_WriteFile pubFile (repeat x00 64) perm_0644)
               (fun err => match err with
                           | Some e => ret (Some e)
                           | None => ret None
                           end)
         end) fs.
Proof. reflexivity. Qed.

(** X20: the error of [ed25519.GenerateKey] is dropped: when the
    generation fails and yields no keys, the call goes on to write; whenever
    it then returns nil, each of the two paths holds 64 zero bytes, which
    the loaders reject; and it does return nil when the paths name two
    different absent files that the system lets be created, the files
    getting the modes 0400 and 0644 less the umask. *)
Theorem root_keypair_save_without_keys (fs : FS) (privFile pubFile : string) :
  (forall fs',
     GenerateAndSaveNoiseRootKeyPair [] [] privFile pubFile fs = (Ret None, fs') ->
     (exists f, fs' !! privFile = Some f /\ f_data f = repeat x00 64) /\
     (exists f, fs' !! pubFile = Some f /\ f_data f = repeat x00 64) /\
     (exists e, LoadNoiseRootPrivateKey privFile fs' = (Ret (None, Some e), fs')) /\
     (exists e, LoadNoiseRootPublicKey pubFile fs' = (Ret (None, Some e), fs'))) /\
  (forall id1 id2,
     fs_resolve fs privFile = Some id1 -> fs_resolve fs pubFile = Some id2 ->
     id1 <> id2 ->
     fs_files fs !! id1 = None -> fs_files fs !! id2 = None ->
     fs_accepts fs id1 = true -> fs_accepts fs id2 = true ->
     exists fs',
       GenerateAndSaveNoiseRootKeyPair [] [] privFile pubFile fs = (Ret None, fs') /\
       fs' !! privFile = Some (mkFile (repeat x00 64) (created_mode fs perm_0400)) /\
       fs' !! pubFile = Some (mkFile (repeat x00 64) (created_mode fs perm_0644))).
Proof.
  rewrite save_without_keys_writes. unfold bind, ret. split.
  - intros fs'.
    destruct (WriteFile_cases privFile (repeat x00 64) perm_0400 fs)
      as [(e & ->) | (id1 & m1 & Hr1 & -> & _)]; [intros H; discriminate H|].
    destruct (WriteFile_cases pubFile (repeat x00 64) perm_0644
                (fs_set id1 (mkFile (repeat x00 64) m1) fs))
      as [(e & ->) | (id2 & m2 & Hr2 & -> & _)]; intros H; [discriminate H|].
    apply (f_equal snd) in H. cbn [snd] in H. subst fs'.
    cbn [fs_set fs_resolve] in Hr2.
    assert (exists f, fs_set id2 (mkFile (repeat x00 64) m2)
                        (fs_set id1 (mkFile (repeat x00 64) m1) fs) !! privFile = Some f /\
                      f_data f = repeat x00 64) as (f1 & L1 & D1).
    { destruct (decide (id1 = id2)) as [->|Hne].
      - eexists. split; [apply fs_set_lookup_eq; exact Hr1 | reflexivity].
      - eexists. split;
          [rewrite fs_set_lookup_ne by (cbn [fs_set fs_resolve]; congruence);
           apply fs_set_lookup_eq; exact Hr1
          | reflexivity]. }
    assert (fs_set id2 (mkFile (repeat x00 64) m2)
              (fs_set id1 (mkFile (repeat x00 64) m1) fs) !! pubFile
            = Some (mkFile (repeat x00 64) m2)) as L2
      by (apply fs_set_lookup_eq; exact Hr2).
    split; [eauto|]. split; [eauto|]. split.
    + apply (load_root_rejects _ privFile f1 _ L1). right. rewrite D1. reflexivity.
    + apply (load_root_rejects _ pubFile _ _ L2). right. reflexivity.
  - intros id1 id2 Hr1 Hr2 Hne Hf1 Hf2 Ha1 Ha2.
    rewrite (WriteFile_ok privFile id1 _ _ fs Hr1 Ha1) by (intros f0 H0; congruence).
    rewrite Hf1.
    set (fs1 := fs_set id1 (mkFile (repeat x00 64) (created_mode fs perm_0400)) fs).
    assert (fs_files fs1 !! id2 = None) as Hf2'
      by (unfold fs1; cbn [fs_set fs_files];
          rewrite lookup_insert_ne by exact Hne; exact Hf2).
    rewrite (WriteFile_ok pubFile id2 _ _ fs1 Hr2 Ha2) by (intros f0 H0; congruence).
    rewrite Hf2'.
    change (created_mode fs1 perm_0644) with (created_mode fs perm_0644).
    eexists. split; [reflexivity|]. split.
    + rewrite fs_set_lookup_ne by (unfold fs1; cbn [fs_set fs_resolve]; congruence).
      apply fs_set_lookup_eq. exact Hr1.
    + apply fs_set_lookup_eq. exact Hr2.
Qed.

Lemma root_keypair_save_without_keys_witness :
  exists fs',
    GenerateAndSaveNoiseRootKeyPair [] [] "root.priv" "root.pub" (fs_cwd ∅) = (Ret None, fs') /\
    exists e, LoadNoiseRootPublicKey "root.pub" fs' = (Ret (None, Some e), fs').
Proof.
  destruct (root_keypair_save_without_keys (fs_cwd ∅) "root.priv" "root.pub")
    as [Hzero Hrun].
  destruct (Hrun "root.priv" "root.pub" eq_refl eq_refl ltac:(discriminate)
              (lookup_empty _) (lookup_empty _) eq_refl eq_refl) as (fs' & H & _).
  exists fs'. split; [exact H|].
  exact (proj2 (proj2 (proj2 (Hzero fs' H)))).
Defined.
